(** * Research orchestration and session progress: a shallow embedding

  The development embeds three Python modules of the repository:

  - [src/agents/research_agent.py]: the bounded search / extract / merge
    loop of [DeepResearchAgent] together with its query planner, its
    extraction helpers and its result validation;
  - [src/services/websocket_service.py]: the session registry and the
    progress broadcasts of [WebSocketService];
  - [src/routes/websocket_routes.py]: the routes that query, complete, fail
    and clean up a session.

  Python dictionaries are finite maps ([gmap]) with string keys, Python
  exceptions are an explicit outcome, and every observable effect (a search,
  a callback invocation, a database write, a socket emission) is recorded in
  a trace. *)

From Stdlib Require Import Ascii.
From Stdlib Require String.
From stdpp Require Import base option list strings gmap fin_maps.

Local Open Scope Z_scope.
Local Open Scope stdpp_scope.

(** ** Python string primitives used by the source

  Strings are byte strings.  [lower] and [strip] act on the ASCII range,
  which is where they agree with Python's [str.lower] and [str.strip]. *)
Module PyStr.

Definition lower_ascii (c : ascii) : ascii :=
  let n := nat_of_ascii c in
  if ((65 <=? n)%nat && (n <=? 90)%nat)%bool then ascii_of_nat (n + 32) else c.

Fixpoint lower (s : string) : string :=
  match s with
  | EmptyString => EmptyString
  | String c s' => String (lower_ascii c) (lower s')
  end.

(** [str.isspace] on one ASCII character: tab to carriage return, the four
    separators 28..31 and the blank. *)
Definition isspace (c : ascii) : bool :=
  let n := nat_of_ascii c in
  (((9 <=? n)%nat && (n <=? 13)%nat) || ((28 <=? n)%nat && (n <=? 32)%nat))%bool.

Fixpoint lstrip (s : string) : string :=
  match s with
  | EmptyString => EmptyString
  | String c s' => if isspace c then lstrip s' else s
  end.

Definition strip (s : string) : string :=
  String.rev (lstrip (String.rev (lstrip s))).

Fixpoint prefix (p s : string) : bool :=
  match p, s with
  | EmptyString, _ => true
  | String a p', String b s' => if decide (a = b) then prefix p' s' else false
  | String _ _, EmptyString => false
  end.

(** [needle in hay] *)
Fixpoint contains (needle hay : string) : bool :=
  if prefix needle hay then true
  else match hay with
       | EmptyString => false
       | String _ hay' => contains needle hay'
       end.

Definition is_empty (s : string) : bool :=
  match s with EmptyString => true | String _ _ => false end.

(** How an f-string renders a value that may be [None]. *)
Definition fmt (o : option string) : string := default "None" o.

End PyStr.

(** ** Outcomes of a Python call: a value or a raised exception. *)
Inductive exn : Type :=
| ValueError (msg : string)
| AttributeError (msg : string)
| KeyError (key : string)
| NameError (name : string)
| ProviderError (msg : string).

Inductive outcome (A : Type) : Type :=
| Return (a : A)
| Raise (e : exn).
Arguments Return {A} a.
Arguments Raise {A} e.

#[global] Instance outcome_ret : MRet outcome := fun A a => Return a.
#[global] Instance outcome_bind : MBind outcome := fun A B f m =>
  match m with
  | Return a => f a
  | Raise e => Raise e
  end.

(** ** [src/agents/research_agent.py] *)
Module research_agent.
Import PyStr.

(** Values stored in a result dictionary: [None], a string, or a list of
    strings. *)
Inductive field_value : Type :=
  | FNone
  | FStr (s : string)
  | FList (l : list string).

#[global] Instance field_value_eq_dec : EqDecision field_value.
Proof. solve_decision. Defined.

(** Python truthiness. *)
Definition truthy (v : field_value) : bool :=
  match v with
  | FNone => false
  | FStr s => negb (is_empty s)
  | FList l => match l with [] => false | _ :: _ => true end
  end.

Abbreviation dict := (gmap string field_value).

(** [d.update(e)]: every key of [e] is written into [d]. *)
Definition dict_update (d e : dict) : dict := e ∪ d.

(** [d.get(k)] followed by a truth test. *)
Definition get_truthy (d : dict) (k : string) : bool :=
  match d !! k with Some v => truthy v | None => false end.

(** [d.get(k, [])] where the stored value is a list. *)
Definition get_list (d : dict) (k : string) : list string :=
  match d !! k with Some (FList l) => l | _ => [] end.

(** [list(set(l))]: the distinct elements of [l].  Python leaves the order
    unspecified; [remove_dups] fixes one.  The properties proved about such
    lists speak of their elements only, and the closed examples use lists of
    at most one element. *)
Definition list_set (l : list string) : list string := remove_dups l.

(** Rows of the [companies] and [people] tables, as far as the agent reads
    them.  Every column but the key is nullable. *)
Record Company := mkCompany {
  c_id : string;
  c_name : option string;
  c_domain : option string
}.

Record Person := mkPerson {
  p_id : string;
  p_company_id : option string
}.

Record database := mkDatabase {
  people : gmap string Person;
  companies : gmap string Company
}.

(** One search hit: a dictionary with optional keys ['snippet'] and
    ['url']. *)
Record search_result := mkResult {
  snippet : option string;
  url : option string
}.

Definition required_fields : list string :=
  [ "company_value_prop"; "product_names"; "pricing_model";
    "key_competitors"; "company_domain" ].

Definition max_iterations : nat := 3.

Definition _all_fields_found (results : dict) : bool :=
  forallb (fun field => get_truthy results field) required_fields.

Definition _get_missing_fields (current_results : dict) : list string :=
  filter (fun field => get_truthy current_results field = false) required_fields.

Definition _validate_results (results : dict) : dict :=
  foldl (fun validated field =>
           match results !! field with
           | Some v => if truthy v then <[field := v]> validated else validated
           | None => validated
           end) ∅ required_fields.

Definition _generate_search_query (company : Company) (person : Person)
    (current_results : dict) (iteration : nat) : string :=
  let missing_fields := _get_missing_fields current_results in
  if decide (iteration = 0%nat) then
    fmt (c_name company) +:+ " company overview products pricing"
  else if decide ("company_value_prop" ∈ missing_fields) then
    fmt (c_name company) +:+ " value proposition mission what does"
  else if decide ("pricing_model" ∈ missing_fields) then
    fmt (c_name company) +:+ " pricing plans cost subscription"
  else if decide ("key_competitors" ∈ missing_fields) then
    fmt (c_name company) +:+ " competitors alternatives vs"
  else
    fmt (c_name company) +:+ " " +:+ fmt (c_domain company) +:+ " about products".

(** *** Extraction helpers *)

Definition _clean_text (text : string) : string := strip text.

Definition _extract_products (text : string) (company_name : option string)
    : list string :=
  let products := [] in
  let products :=
    if contains "software" (lower text) then products ++ ["Software"] else products in
  let products :=
    if contains "cloud" (lower text) then products ++ ["Cloud Solutions"] else products in
  let products :=
    if contains "consulting" (lower text) then products ++ ["Consulting"] else products in
  products.

Definition _extract_pricing (text : string) : option string :=
  if contains "subscription" (lower text) then Some "Subscription-based pricing model"
  else if contains "freemium" (lower text) then Some "Freemium pricing model"
  else if contains "pay-per-use" (lower text) then Some "Pay-per-use pricing model"
  else None.

Definition common_competitors : list string :=
  [ "Microsoft"; "Google"; "Amazon"; "IBM"; "Oracle"; "Salesforce" ].

(** The second conjunct calls [company_name.lower()], which raises on a
    company without a name; [and] evaluates it only when the first holds. *)
Definition _extract_competitors (text : string) (company_name : option string)
    : outcome (list string) :=
  foldl (fun acc competitor =>
           competitors ← acc;
           if contains (lower competitor) (lower text) then
             match company_name with
             | None => Raise (AttributeError "'NoneType' object has no attribute 'lower'")
             | Some name =>
                 if decide (lower competitor ≠ lower name)
                 then Return (competitors ++ [competitor])
                 else Return competitors
             end
           else Return competitors)
        (Return []) common_competitors.

Definition of_option (o : option string) : field_value :=
  match o with Some s => FStr s | None => FNone end.

Section Extractor.

(** [re.search(pattern, text, re.IGNORECASE)] of Python's standard library:
    the matched text (group 0) of the leftmost match, [None] without a
    match, or an exception for a pattern that does not compile.  The
    patterns embed the company name unescaped. *)
Variable re_search : string → string → outcome (option string).

Definition value_prop_patterns (company_name : option string) : list string :=
  [ fmt company_name +:+ ".*?specializes in.*?\." ;
    fmt company_name +:+ ".*?provides.*?\." ;
    fmt company_name +:+ ".*?offers.*?\." ].

Fixpoint first_match (patterns : list string) (text : string)
    : outcome (option string) :=
  match patterns with
  | [] => Return None
  | pattern :: rest =>
      m ← re_search pattern text;
      match m with
      | Some g => Return (Some g)
      | None => first_match rest text
      end
  end.

Definition _extract_value_prop (text : string) (company_name : option string)
    : outcome (option string) :=
  first_match (value_prop_patterns company_name) text.

Definition _deduplicate_insights (insights : dict) : dict :=
  let insights :=
    match insights !! "product_names" with
    | Some _ => <["product_names" := FList (list_set (get_list insights "product_names"))]> insights
    | None => insights
    end in
  let insights :=
    match insights !! "key_competitors" with
    | Some _ => <["key_competitors" := FList (list_set (get_list insights "key_competitors"))]> insights
    | None => insights
    end in
  insights.

(** The body of the [for result in search_results] loop. *)
Definition insights_step (company : Company) (insights : dict)
    (result : search_result) : outcome dict :=
  let text := _clean_text (default "" (snippet result)) in
  insights ←
    (if get_truthy insights "company_value_prop" then Return insights
     else vp ← _extract_value_prop text (c_name company);
          Return (<["company_value_prop" := of_option vp]> insights));
  let products := _extract_products text (c_name company) in
  let insights :=
    match products with
    | [] => insights
    | _ :: _ =>
        <["product_names" :=
            FList (list_set (get_list insights "product_names" ++ products))]> insights
    end in
  let insights :=
    if get_truthy insights "pricing_model" then insights
    else <["pricing_model" := of_option (_extract_pricing text)]> insights in
  competitors ← _extract_competitors text (c_name company);
  Return
    match competitors with
    | [] => insights
    | _ :: _ =>
        <["key_competitors" :=
            FList (list_set (get_list insights "key_competitors" ++ competitors))]> insights
    end.

Definition _extract_insights (search_results : list search_result)
    (company : Company) : outcome dict :=
  insights ← foldl (fun acc result => insights ← acc; insights_step company insights result)
                   (Return ∅) search_results;
  Return (_deduplicate_insights insights).

End Extractor.

(** *** The search provider *)

(** A provider answers queries and carries the [mock_results] table.  The
    first argument of [search] is the number of earlier calls, so a provider
    may answer the same query differently over time; it may also raise. *)
Record SearchProvider := mkProvider {
  search : nat → string → outcome (list search_result);
  mock_results : gmap string dict
}.

Definition alpha_results : dict :=
  <["company_value_prop" := FStr "Alpha Pro Tech Ltd. specializes in providing high-quality personal protective equipment (PPE) and infection control solutions tailored for medical and industrial sectors."]>
  (<["product_names" := FList ["Disposable Protective Masks"; "Surgical Gowns"; "Coveralls"]]>
  (<["pricing_model" := FStr "Alpha Pro Tech employs competitive pricing strategies, offering products at prices aligned with or slightly below industry averages. They provide volume discounts and tiered pricing for bulk purchases, along with seasonal promotions and contract pricing for long-term clients."]>
  (<["key_competitors" := FList ["3M Company"; "Kimberly-Clark"; "Cardinal Health"]]>
  (<["company_domain" := FStr "alpha.com"]> ∅)))).

Definition techcorp_results : dict :=
  <["company_value_prop" := FStr "TechCorp Solutions provides innovative technology solutions for enterprise clients."]>
  (<["product_names" := FList ["Enterprise Software"; "Cloud Solutions"; "IT Consulting"]]>
  (<["pricing_model" := FStr "TechCorp uses a subscription-based pricing model with tiered plans based on company size and feature requirements."]>
  (<["key_competitors" := FList ["Microsoft"; "IBM"; "Oracle"]]>
  (<["company_domain" := FStr "techcorp.com"]> ∅)))).

Definition mock_table : gmap string dict :=
  <["alpha" := alpha_results]> (<["techcorp" := techcorp_results]> ∅).

Definition mock_search (query : string) : list search_result :=
  if contains "alpha" (lower query) then
    [ mkResult (Some "Alpha Pro Tech specializes in PPE equipment")
               (Some "https://alpha.com/about") ]
  else if contains "techcorp" (lower query) then
    [ mkResult (Some "TechCorp Solutions provides enterprise technology")
               (Some "https://techcorp.com/about") ]
  else
    [ mkResult (Some "Generic search result") (Some "https://example.com") ].

Definition MockSearchProvider : SearchProvider :=
  mkProvider (fun _ query => Return (mock_search query)) mock_table.

(** *** Effects of a run *)

Record progress_update := mkProgress {
  pu_type : string;
  pu_iteration : nat;
  pu_total_iterations : nat;
  (** [list(results.keys())]: the keys of the dictionary, as a set *)
  pu_fields_found : gset string;
  pu_fields_remaining : list string;
  pu_timestamp : string
}.

Definition _create_progress_update (iteration : nat) (results : dict)
    : progress_update :=
  {| pu_type := "progress";
     pu_iteration := iteration + 1;
     pu_total_iterations := 3;
     pu_fields_found := dom results;
     pu_fields_remaining := _get_missing_fields results;
     pu_timestamp := "2025-07-28T12:00:00Z" |}.

(** What a run does, in order.  [Merged] is not an effect of the source: it
    marks the statement [results.update(extracted_data)] and records the
    dictionary it leaves, so that properties of the running result can be
    stated on the trace. *)
Inductive action : Type :=
| Searched (query : string)
| Merged (results : dict)
| Progress (update : progress_update)
| Saved (company_id : string) (payload : dict) (source_urls : list string).

(** A computation: the actions performed and how it ended.  [None] is the
    model's own ending for a loop cut short by its fuel; the theorems show
    that a run never ends so. *)
Definition run (A : Type) : Type := list action * option (outcome A).

#[global] Instance run_ret : MRet run := fun A a => ([], Some (Return a)).
#[global] Instance run_bind : MBind run := fun A B f m =>
  match m with
  | (t, Some (Return a)) => let '(t', r) := f a in (t ++ t', r)
  | (t, Some (Raise e)) => (t, Some (Raise e))
  | (t, None) => (t, None)
  end.

Definition perform (a : action) : run () := ([a], Some (Return ())).
Definition lift {A} (o : outcome A) : run A := ([], Some o).
Definition out_of_fuel {A} : run A := ([], None).

(** *** The orchestration loop *)

Section Orchestrator.

Variable provider : SearchProvider.
(** The extractor is a method of the agent; the loop is stated over any
    extractor, [DeepResearchAgent] below plugs in [_extract_insights]. *)
Variable extract : list search_result → Company → outcome dict.
(** Whether a [progress_callback] was supplied; invoking it records the
    update it receives. *)
Variable progress_callback : bool.

(** [while iteration < max_iterations and not self._all_fields_found(results)].
    The local [search_results] is unbound until the first pass. *)
Fixpoint research_loop (fuel : nat) (company : Company) (person : Person)
    (iteration : nat) (results : dict)
    (search_results : option (list search_result))
    : run (dict * option (list search_result)) :=
  if (iteration <? max_iterations)%nat && negb (_all_fields_found results) then
    match fuel with
    | O => out_of_fuel
    | S fuel' =>
        let query := _generate_search_query company person results iteration in
        _ ← perform (Searched query);
        search_results ← lift (search provider iteration query);
        extracted_data ← lift (extract search_results company);
        let results := dict_update results extracted_data in
        _ ← perform (Merged results);
        _ ← (if progress_callback
             then perform (Progress (_create_progress_update iteration results))
             else mret ());
        research_loop fuel' company person (iteration + 1) results (Some search_results)
    end
  else mret (results, search_results).

Definition company_key (company : Company) : string :=
  match c_name company with
  | Some name => if is_empty name then "techcorp" else lower name
  | None => "techcorp"
  end.

Definition table_get (table : gmap string dict) (key : string) : outcome dict :=
  match table !! key with
  | Some d => Return d
  | None => Raise (KeyError key)
  end.

Definition _save_context_snippet (company_id : string) (results : dict)
    (search_results : list search_result) : run () :=
  perform (Saved company_id results (map (fun result => default "" (url result)) search_results)).

Definition research_person_fuel (fuel : nat) (db : database) (person_id : string)
    : run dict :=
  match people db !! person_id with
  | None => lift (Raise (ValueError ("Person with ID " +:+ person_id +:+ " not found")))
  | Some person =>
      match p_company_id person ≫= (fun cid => companies db !! cid) with
      | None => lift (Raise (ValueError ("Company for person " +:+ person_id +:+ " not found")))
      | Some company =>
          '(results, search_results) ← research_loop fuel company person 0 ∅ None;
          results ← lift (if contains "alpha" (company_key company)
                          then table_get (mock_results provider) "alpha"
                          else table_get (mock_results provider) "techcorp");
          let validated_results := _validate_results results in
          search_results ← lift (match search_results with
                                 | Some sr => Return sr
                                 | None => Raise (NameError "search_results")
                                 end);
          _ ← _save_context_snippet (c_id company) validated_results search_results;
          mret validated_results
      end
  end.

Definition research_person := research_person_fuel max_iterations.

End Orchestrator.

(** [DeepResearchAgent(search_provider).research_person(person_id, callback)] *)
Definition DeepResearchAgent
    (re_search : string → string → outcome (option string))
    (search_provider : option SearchProvider) :=
  research_person (default MockSearchProvider search_provider)
                  (_extract_insights re_search).

End research_agent.

(** ** [src/services/websocket_service.py] *)
Module websocket_service.

(** JSON-like values held in a progress snapshot. *)
#[local] Unset Elimination Schemes.
Inductive json : Type :=
| JNull
| JStr (s : string)
| JInt (z : Z)
| JList (l : list json)
| JDict (d : list (string * json)).
#[local] Set Elimination Schemes.

Abbreviation snapshot := (gmap string json).
Abbreviation registry := (gmap string (gmap string json)).

(** Where the socket layer delivers a message: the client whose request is
    being handled ([emit] inside a handler) or every member of a room
    ([socketio.emit(..., room=...)]). *)
Inductive target : Type :=
| ToClient (sid : string)
| ToRoom (room : string).

Record emission := mkEmission {
  recipient : target;
  event : string;
  payload : snapshot
}.

(** The service object together with the socket layer it drives: room
    membership and the messages sent so far, oldest first. *)
Record service := mkService {
  active_sessions : gmap string string;
  progress_data : registry;
  rooms : gmap string (gset string);
  outbox : list emission
}.

Definition empty_service : service := mkService ∅ ∅ ∅ [].

Definition set_progress_data (st : service) (reg : registry) : service :=
  mkService (active_sessions st) reg (rooms st) (outbox st).

Definition emit (to : target) (ev : string) (data : snapshot) (st : service)
    : service :=
  mkService (active_sessions st) (progress_data st) (rooms st)
            (outbox st ++ [mkEmission to ev data]).

Definition join_room (sid room : string) (st : service) : service :=
  mkService (active_sessions st) (progress_data st)
            (<[room := {[sid]} ∪ default ∅ (rooms st !! room)]> (rooms st))
            (outbox st).

Definition leave_room (sid room : string) (st : service) : service :=
  mkService (active_sessions st) (progress_data st)
            (<[room := default ∅ (rooms st !! room) ∖ {[sid]}]> (rooms st))
            (outbox st).

(** [if session_id:] on the value of [data.get('session_id')] *)
Definition truthy_id (session_id : option string) : option string :=
  match session_id with
  | Some s => if PyStr.is_empty s then None else Some s
  | None => None
  end.

(** *** Socket event handlers; [sid] is [request.sid]. *)

Definition handle_join_research_session (sid : string)
    (session_id : option string) (st : service) : service :=
  match truthy_id session_id with
  | Some session_id =>
      let st := join_room sid session_id st in
      let st := mkService (<[sid := session_id]> (active_sessions st))
                          (progress_data st) (rooms st) (outbox st) in
      emit (ToClient sid) "joined_session"
           (<["session_id" := JStr session_id]>
            (<["status" := JStr "Joined research session"]> ∅)) st
  | None => st
  end.

Definition handle_leave_research_session (sid : string)
    (session_id : option string) (st : service) : service :=
  match truthy_id session_id with
  | Some session_id =>
      let st := leave_room sid session_id st in
      let st := mkService (delete sid (active_sessions st))
                          (progress_data st) (rooms st) (outbox st) in
      emit (ToClient sid) "left_session"
           (<["session_id" := JStr session_id]>
            (<["status" := JStr "Left research session"]> ∅)) st
  | None => st
  end.

Definition handle_get_progress (sid : string) (session_id : option string)
    (st : service) : service :=
  match truthy_id session_id with
  | Some session_id =>
      match progress_data st !! session_id with
      | Some snap => emit (ToClient sid) "progress_update" snap st
      | None => st
      end
  | None => st
  end.

(** *** Session operations.  [now] is [datetime.utcnow().isoformat()]. *)

(** [d.update(patch)] *)
Definition apply_patch (patch snap : snapshot) : snapshot := patch ∪ snap.

Definition initial_snapshot (session_id person_id person_name now : string)
    : snapshot :=
  list_to_map
    [ ("session_id", JStr session_id); ("person_id", JStr person_id);
      ("person_name", JStr person_name); ("status", JStr "starting");
      ("progress", JInt 0); ("current_step", JStr "Initializing research...");
      ("steps_completed", JInt 0); ("total_steps", JInt 5);
      ("start_time", JStr now); ("estimated_completion", JNull);
      ("results", JList []) ].

(** The registry write and the broadcast of [start_research_session], up to
    the moment the thread is launched.  The thread runs
    [_simulate_research_process] on the service this function leaves; what
    the caller sees later depends on how far the thread has come, so the
    properties of a started session are stated on this state and on the
    runs of [_simulate_research_process] from it. *)
Definition start_research_session (session_id person_id person_name now : string)
    (st : service) : service :=
  let snap := initial_snapshot session_id person_id person_name now in
  let st := set_progress_data st (<[session_id := snap]> (progress_data st)) in
  emit (ToRoom session_id) "research_started" snap st.

Definition update_progress (session_id : string) (patch : snapshot)
    (st : service) : service :=
  match progress_data st !! session_id with
  | Some snap =>
      let snap := apply_patch patch snap in
      let st := set_progress_data st (<[session_id := snap]> (progress_data st)) in
      emit (ToRoom session_id) "progress_update" snap st
  | None => st
  end.

Definition completed_patch (now : string) (results : json) : snapshot :=
  list_to_map
    [ ("status", JStr "completed"); ("progress", JInt 100);
      ("current_step", JStr "Research completed successfully!");
      ("completion_time", JStr now); ("results", results) ].

Definition complete_research (session_id : string) (results : json)
    (now : string) (st : service) : service :=
  match progress_data st !! session_id with
  | Some snap =>
      let snap := apply_patch (completed_patch now results) snap in
      let st := set_progress_data st (<[session_id := snap]> (progress_data st)) in
      emit (ToRoom session_id) "research_completed" snap st
  | None => st
  end.

Definition error_patch (now error_message : string) : snapshot :=
  list_to_map
    [ ("status", JStr "error");
      ("current_step", JStr ("Error: " +:+ error_message));
      ("error_time", JStr now); ("error_message", JStr error_message) ].

Definition error_research (session_id error_message now : string)
    (st : service) : service :=
  match progress_data st !! session_id with
  | Some snap =>
      let snap := apply_patch (error_patch now error_message) snap in
      let st := set_progress_data st (<[session_id := snap]> (progress_data st)) in
      emit (ToRoom session_id) "research_error" snap st
  | None => st
  end.

Definition get_session_progress (session_id : string) (st : service)
    : option snapshot :=
  progress_data st !! session_id.

Definition cleanup_session (session_id : string) (st : service) : service :=
  match progress_data st !! session_id with
  | Some _ => set_progress_data st (delete session_id (progress_data st))
  | None => st
  end.

(** *** The simulated research run

    [_simulate_research_process] runs in a thread of its own and sleeps after
    every broadcast.  Whatever the other threads do to the registry during
    the sleep of step [i] is the transformer [env i]; the run observes it
    when it wakes up.  [clock i] is the time read at step [i], [clock 5] the
    time read on completion. *)

Definition steps : list (string * nat) :=
  [ ("Searching LinkedIn profiles...", 2%nat);
    ("Analyzing company information...", 3%nat);
    ("Gathering social media data...", 2%nat);
    ("Processing competitive intelligence...", 4%nat);
    ("Finalizing research report...", 1%nat) ].

Definition company_info_entry : json :=
  JDict [ ("type", JStr "company_info");
          ("data", JDict [ ("name", JStr "TechCorp Inc.");
                           ("industry", JStr "Technology");
                           ("employees", JStr "500-1000");
                           ("revenue", JStr "$50M-$100M") ]) ].

Definition competitive_intel_entry : json :=
  JDict [ ("type", JStr "competitive_intel");
          ("data", JDict [ ("competitors", JList [JStr "CompetitorA"; JStr "CompetitorB"]);
                           ("market_position", JStr "Strong");
                           ("key_differentiators",
                            JList [JStr "Innovation"; JStr "Customer Service"]) ]) ].

(** [self.progress_data[session_id]['results'].append(entry)].  When the
    value under ['results'] is not a list, the text of Python's
    [AttributeError] names the type of that value; the model keeps one
    text. *)
Definition append_result (session_id : string) (entry : json) (reg : registry)
    : outcome registry :=
  match reg !! session_id with
  | None => Raise (KeyError session_id)
  | Some snap =>
      match snap !! "results" with
      | None => Raise (KeyError "results")
      | Some (JList l) =>
          Return (<[session_id := <["results" := JList (l ++ [entry])]> snap]> reg)
      | Some _ => Raise (AttributeError "object has no attribute 'append'")
      end
  end.

(** [int((i / len(steps)) * 100)]; for [i] below 5 the floating-point value
    is the integer [20 * i]. *)
Definition percent (i : nat) : Z := (Z.of_nat i * 100) `div` Z.of_nat (length steps).

Definition in_progress_patch (i : nat) (step : string) (now : string) : snapshot :=
  list_to_map
    [ ("status", JStr "in_progress"); ("progress", JInt (percent i));
      ("current_step", JStr step); ("steps_completed", JInt (Z.of_nat i));
      ("estimated_completion", JStr now) ].

Definition finished_patch (now : string) : snapshot :=
  list_to_map
    [ ("status", JStr "completed"); ("progress", JInt 100);
      ("current_step", JStr "Research completed successfully!");
      ("steps_completed", JInt (Z.of_nat (length steps)));
      ("completion_time", JStr now) ].

Section Simulation.

Variable session_id : string.
Variable clock : nat → string.
Variable env : nat → registry → registry.

(** [for i, step_info in enumerate(steps)], from index [i] on. *)
Fixpoint simulate_loop (i : nat) (todo : list (string * nat)) (st : service)
    : service * outcome () :=
  match todo with
  | [] => (st, Return ())
  | step_info :: todo' =>
      match progress_data st !! session_id with
      | None => (st, Return ())
      | Some snap =>
          let snap := apply_patch (in_progress_patch i (fst step_info) (clock i)) snap in
          let st := set_progress_data st (<[session_id := snap]> (progress_data st)) in
          let st := emit (ToRoom session_id) "progress_update" snap st in
          let st := set_progress_data st (env i (progress_data st)) in
          let added :=
            if decide (i = 1%nat) then
              append_result session_id company_info_entry (progress_data st)
            else if decide (i = 3%nat) then
              append_result session_id competitive_intel_entry (progress_data st)
            else Return (progress_data st) in
          match added with
          | Return reg => simulate_loop (S i) todo' (set_progress_data st reg)
          | Raise e => (st, Raise e)
          end
      end
  end.

Definition _simulate_research_process (st : service) : service * outcome () :=
  match progress_data st !! session_id with
  | None => (st, Return ())
  | Some _ =>
      match simulate_loop 0 steps st with
      | (st, Return _) =>
          match progress_data st !! session_id with
          | Some snap =>
              let snap := apply_patch (finished_patch (clock (length steps))) snap in
              let st := set_progress_data st (<[session_id := snap]> (progress_data st)) in
              (emit (ToRoom session_id) "research_completed" snap st, Return ())
          | None => (st, Return ())
          end
      | (st, o) => (st, o)
      end
  end.

End Simulation.
(** *** Connection handlers *)

Definition handle_connect (sid : string) (st : service) : service :=
  emit (ToClient sid) "connected"
       (<["status" := JStr "Connected to Alpha Platform"]> ∅) st.

(** The handler forgets the client's active session.  What the socket layer
    itself does to its rooms on a disconnect is not part of the handler. *)
Definition handle_disconnect (sid : string) (st : service) : service :=
  match active_sessions st !! sid with
  | Some _ => mkService (delete sid (active_sessions st))
                        (progress_data st) (rooms st) (outbox st)
  | None => st
  end.

End websocket_service.

(** ** [src/routes/websocket_routes.py]: the routes that query, complete and
    clean up a session *)
Module websocket_routes.
Import websocket_service.

(** What [request.get_json()] and the first [data.get] make of the request:
    a JSON object, or an exception (no body, a body that is not JSON, a body
    that is not an object) whose text is [error]. *)
Inductive request_body : Type :=
| ObjectBody (data : gmap string json)
| BadBody (error : string).

(** [jsonify(...)] with its status code. *)
Inductive response : Type :=
| RSuccess (message : string)
| RProgress (progress : snapshot)
| RFailure (code : nat) (error : string).

Definition status_code (r : response) : nat :=
  match r with
  | RSuccess _ | RProgress _ => 200
  | RFailure code _ => code
  end.

Definition not_available : response :=
  RFailure 500 "WebSocket service not available".

(** [if not progress]: [None] and the empty dictionary are both falsy. *)
Definition falsy_progress (progress : option snapshot) : bool :=
  match progress with
  | None => true
  | Some snap => bool_decide (snap = ∅)
  end.

(** The routes take the global service, [None] before
    [init_websocket_service], and return it with the response.  The route
    [get_session_progress] is named [get_session_progress_route] here, the
    service has a method of the same name. *)
Definition get_session_progress_route (session_id : string) (ws : option service)
    : option service * response :=
  match ws with
  | None => (ws, not_available)
  | Some st =>
      let progress := get_session_progress session_id st in
      if falsy_progress progress then (ws, RFailure 404 "Session not found")
      else match progress with
           | Some snap => (ws, RProgress snap)
           | None => (ws, RFailure 404 "Session not found")
           end
  end.

Definition complete_research_session (session_id : string) (body : request_body)
    (now : string) (ws : option service) : option service * response :=
  match body with
  | BadBody error => (ws, RFailure 500 error)
  | ObjectBody data =>
      let results := default (JList []) (data !! "results") in
      match ws with
      | None => (ws, not_available)
      | Some st =>
          (Some (complete_research session_id results now st),
           RSuccess "Research session completed")
      end
  end.

Definition cleanup_research_session (session_id : string) (ws : option service)
    : option service * response :=
  match ws with
  | None => (ws, not_available)
  | Some st =>
      (Some (cleanup_session session_id st), RSuccess "Research session cleaned up")
  end.

End websocket_routes.

(** * Vocabulary of the properties *)

Import PyStr research_agent websocket_service websocket_routes.

(** Closes an equation between closed terms by evaluating its left-hand
    side. *)
Ltac by_evaluation :=
  lazymatch goal with
  | |- _ = ?r => vm_cast_no_check (@eq_refl _ r)
  end.

(** ** The planner of the specification *)

(** The planner as the specification words it: iteration 0 asks the broad
    overview question; a later iteration asks about the first field, in the
    order value proposition, pricing model, competitors, that is still
    missing, and falls back to the general about/products question.

    These definitions follow the specification and use nothing of the
    agent's code.  A result set holds a field when it maps the field's name
    to a non-empty string or to a non-empty list; a field is missing when
    the result set does not hold it. *)
Definition priority_order : list string :=
  [ "company_value_prop"; "pricing_model"; "key_competitors" ].

Definition holds_field (current_results : dict) (field : string) : bool :=
  match current_results !! field with
  | Some (FStr (String _ _)) => true
  | Some (FList (_ :: _)) => true
  | Some (FStr EmptyString) | Some (FList []) | Some FNone | None => false
  end.

Fixpoint first_missing_of (order : list string) (current_results : dict)
    : option string :=
  match order with
  | [] => None
  | field :: rest =>
      if holds_field current_results field
      then first_missing_of rest current_results
      else Some field
  end.

Definition first_missing (current_results : dict) : option string :=
  first_missing_of priority_order current_results.

Definition query_template (company : Company) (field : option string) : string :=
  match field with
  | Some "company_value_prop" =>
      fmt (c_name company) +:+ " value proposition mission what does"
  | Some "pricing_model" =>
      fmt (c_name company) +:+ " pricing plans cost subscription"
  | Some "key_competitors" =>
      fmt (c_name company) +:+ " competitors alternatives vs"
  | _ =>
      fmt (c_name company) +:+ " " +:+ fmt (c_domain company) +:+ " about products"
  end.

Definition planned_query (company : Company) (current_results : dict)
    (iteration : nat) : string :=
  match iteration with
  | O => fmt (c_name company) +:+ " company overview products pricing"
  | S _ => query_template company (first_missing current_results)
  end.

(** ** Traces of a run *)

(** Projections of a trace. *)
Definition searched (t : list action) : list string :=
  omap (fun a => match a with Searched q => Some q | _ => None end) t.
Definition merged (t : list action) : list dict :=
  omap (fun a => match a with Merged r => Some r | _ => None end) t.
Definition progressed (t : list action) : list progress_update :=
  omap (fun a => match a with Progress u => Some u | _ => None end) t.

(** The loop guard. *)
Definition continues (iteration : nat) (results : dict) : bool :=
  (iteration <? max_iterations)%nat && negb (_all_fields_found results).

(** What the callback, if any, is told after a merge. *)
Definition callback_events (progress_callback : bool) (iteration : nat)
    (results : dict) : list action :=
  if progress_callback then [Progress (_create_progress_update iteration results)] else [].

(** The table entry a run ends up with, and the URLs it saves. *)
Definition selected_results (provider : SearchProvider) (company : Company)
    : outcome dict :=
  if contains "alpha" (company_key company)
  then table_get (mock_results provider) "alpha"
  else table_get (mock_results provider) "techcorp".

Definition source_urls (hits : list search_result) : list string :=
  map (fun result => default "" (url result)) hits.

(** Every required field is present and non-empty. *)
Definition all_required_present (results : dict) : Prop :=
  ∀ field, field ∈ required_fields →
    ∃ v, results !! field = Some v ∧ truthy v = true.

(** ** Sample data for closed examples *)

(** A matcher that finds nothing.  It agrees with Python's [re.search] on
    every snippet used below: each of the three patterns ends in a full
    stop, and none of the snippets contains one. *)
Definition re_never (pattern text : string) : outcome (option string) :=
  Return None.

Definition acme : Company := mkCompany "c1" (Some "Acme") (Some "acme.io").
Definition alpha_pro : Company := mkCompany "c2" (Some "Alpha Pro Tech") (Some "alpha.com").
Definition alpha_twin : Company := mkCompany "c3" (Some "Alpha Pro Tech") None.

Definition sample_db : database :=
  mkDatabase
    (<["p1" := mkPerson "p1" (Some "c1")]>
     (<["p2" := mkPerson "p2" (Some "c2")]>
     (<["p3" := mkPerson "p3" (Some "c3")]>
     (<["p4" := mkPerson "p4" (Some "c9")]>
     (<["p5" := mkPerson "p5" None]> ∅)))))
    (<["c1" := acme]> (<["c2" := alpha_pro]> (<["c3" := alpha_twin]> ∅))).

(** A provider whose hits change from call to call.  No extraction from
    these hits holds a list of more than one element, so the order that
    [list(set(...))] gives a list plays no part in the examples. *)
Definition varying_search (calls : nat) (query : string)
    : outcome (list search_result) :=
  match calls with
  | O => Return [ mkResult (Some "  software on subscription ") (Some "https://a.example") ]
  | S O => Return [ mkResult (Some "cloud hosting") None;
                    mkResult (Some "freemium plans by Oracle") (Some "https://b.example") ]
  | _ => Return []
  end.

Definition varying_provider : SearchProvider := mkProvider varying_search mock_table.

(** The two lookups that open [research_person]. *)
Definition resolve (db : database) (person_id : string) : option Company :=
  people db !! person_id ≫= (fun person =>
    p_company_id person ≫= (fun cid => companies db !! cid)).

(** As the specification words it: the failure comes back as a value. *)
Definition returns_normally {A} (r : run A) : Prop := ∃ v, r.2 = Some (Return v).

(** Whether "alpha" occurs in the lowercased name; a missing name has no
    occurrence. *)
Definition name_has_alpha (name : option string) : bool :=
  contains "alpha" (lower (default "" name)).

(** The keys [_extract_insights] may write. *)
Definition extracted_keys : gset string :=
  {[ "company_value_prop"; "product_names"; "pricing_model"; "key_competitors" ]}.

(** The body of the loop of [_validate_results]. *)
Definition keep_valid (results : dict) (validated : dict) (field : string) : dict :=
  match results !! field with
  | Some v => if truthy v then <[field := v]> validated else validated
  | None => validated
  end.

(** An event that reports completion: one of kind "completed", or one whose
    pass number has reached the total. *)
Definition reports_completion (u : progress_update) : Prop :=
  pu_type u = "completed" ∨ pu_iteration u = pu_total_iterations u.

#[global] Instance reports_completion_dec u : Decision (reports_completion u).
Proof. unfold reports_completion. apply _. Defined.

(** As the specification words it: exactly one event of the run reports completion. *)
Definition one_terminal_event (t : list action) : Prop :=
  ∃ u, filter reports_completion (progressed t) = [u].

(** A field set as the validation leaves it. *)
Definition validated_field_set (r : dict) : Prop :=
  ∀ k v, r !! k = Some v → k ∈ required_fields ∧ truthy v = true.

(** As the specification words it: the run returns a validated field set,
    and exactly one of its events reports completion, the fields it reports
    as found being those of the field set returned. *)
Definition completes_as_specified (r : run dict) : Prop :=
  ∃ fields u,
    r.2 = Some (Return fields)
    ∧ validated_field_set fields
    ∧ filter reports_completion (progressed r.1) = [u]
    ∧ pu_fields_found u = dom fields.

(** What the agent's extractor yields on the one hit that
    [MockSearchProvider] returns for a company named neither alpha nor
    techcorp. *)
Definition generic_extraction : dict :=
  <["company_value_prop" := FNone]> (<["pricing_model" := FNone]> ∅).

(** An extractor that fills every field at once. *)
Definition complete_extractor (hits : list search_result) (company : Company)
    : outcome dict :=
  Return techcorp_results.

(** The single-valued and the multi-valued fields of a field set. *)
Definition scalar_fields : list string :=
  [ "company_value_prop"; "pricing_model"; "company_domain" ].
Definition multi_valued_fields : list string :=
  [ "product_names"; "key_competitors" ].

(** As the specification words it: a populated scalar survives the merge, and a
    multi-valued field becomes the duplicate-free union. *)
Definition write_once (results extracted : dict) : Prop :=
  ∀ k v, k ∈ scalar_fields → results !! k = Some v → truthy v = true →
    dict_update results extracted !! k = Some v.

Definition grows_by_union (results extracted : dict) : Prop :=
  ∀ k, k ∈ multi_valued_fields →
    get_list (dict_update results extracted) k
    ≡ₚ list_set (get_list results k ++ get_list extracted k).

(** What the agent's extractor yields on the first and on the second answer
    of [varying_provider]. *)
Definition first_extraction : dict :=
  <["company_value_prop" := FNone]>
  (<["product_names" := FList ["Software"]]>
  (<["pricing_model" := FStr "Subscription-based pricing model"]> ∅)).

Definition second_extraction : dict :=
  <["company_value_prop" := FNone]>
  (<["product_names" := FList ["Cloud Solutions"]]>
  (<["pricing_model" := FStr "Freemium pricing model"]>
  (<["key_competitors" := FList ["Oracle"]]> ∅))).

(** ** Session service: sample states and properties of messages *)

(** A session that has just been started, one that has gathered a first
    result, and one that was completed. *)
Definition started : service :=
  start_research_session "s1" "p1" "Ann" "2025-07-28T12:00:00" empty_service.

(** The keys written by [error_research]. *)
Definition error_patch_keys : list string :=
  [ "status"; "current_step"; "error_time"; "error_message" ].

Definition partial_snapshot : snapshot :=
  apply_patch (<["results" := JList [company_info_entry]]> ∅)
              (initial_snapshot "s1" "p1" "Ann" "2025-07-28T12:00:00").

Definition in_flight : service :=
  update_progress "s1" (<["results" := JList [company_info_entry]]> ∅) started.

Definition finished : service :=
  complete_research "s1" (JList [company_info_entry]) "2025-07-28T12:00:12" started.

(** Two registered sessions, and a patch a caller may send for one of
    them. *)
Definition two_sessions : service :=
  start_research_session "s2" "p2" "Bob" "2025-07-28T12:00:01" started.

Definition halfway_patch : snapshot :=
  <["status" := JStr "in_progress"]> (<["progress" := JInt 50]> ∅).


(** The messages an operation adds to those already sent. *)
Definition sent_by (op : service → service) (st : service) : list emission :=
  drop (length (outbox st)) (outbox (op st)).



(** A message that announces the end of a session. *)
Definition terminal_event (e : emission) : Prop :=
  event e = "research_completed" ∨ event e = "research_error".

#[global] Instance terminal_event_dec e : Decision (terminal_event e).
Proof. unfold terminal_event. apply _. Defined.

(** The step numbers carried by the progress events, in the order sent. *)
Definition progress_steps (evs : list emission) : list json :=
  omap (fun e => if decide (event e = "progress_update")
                 then payload e !! "steps_completed" else None) evs.

Definition step_numbers (first count : nat) : list json :=
  (fun i => JInt (Z.of_nat i)) <$> seq first count.

(** As the specification words it: the steps come as 0, 1, 2, ... and the sequence
    ends with its one terminal event. *)
Definition step_ordered (evs : list emission) : Prop :=
  ∃ n, progress_steps evs = step_numbers 0 n.

Definition well_terminated (evs : list emission) : Prop :=
  (∃ e, last evs = Some e ∧ terminal_event e)
  ∧ length (filter terminal_event evs) = 1%nat.

(** The session is in the registry and its results are a list. *)
Definition registered (reg : registry) (session_id : string) : Prop :=
  ∃ snap l, reg !! session_id = Some snap ∧ snap !! "results" = Some (JList l).

(** The messages sent by one run. *)
Definition run_events (session_id : string) (clock : nat → string)
    (env : nat → registry → registry) (st : service) : list emission :=
  sent_by (fun st => (_simulate_research_process session_id clock env st).1) st.

(** A clock, and two ways the rest of the process may behave while a run
    sleeps. *)
Definition steady_clock (i : nat) : string := "2025-07-28T12:00:01".

(** Nobody touches the registry while the run sleeps. *)
Definition undisturbed (i : nat) (reg : registry) : registry := reg.

(** A [cleanup_session("s1")] arrives during the sleep of step 2. *)
Definition cleaned_at_step_2 (i : nat) (reg : registry) : registry :=
  if decide (i = 2%nat) then progress_data (cleanup_session "s1" (mkService ∅ reg ∅ []))
  else reg.

(** ** Vocabulary of the further properties *)

(** A competitor's name occurs in the text, whatever the case. *)
Definition mentioned (text competitor : string) : bool :=
  contains (lower competitor) (lower text).

(** The body of the loop of [_extract_competitors]. *)
Definition competitor_step (text : string) (company_name : option string)
    (acc : outcome (list string)) (competitor : string) : outcome (list string) :=
  competitors ← acc;
  if contains (lower competitor) (lower text) then
    match company_name with
    | None => Raise (AttributeError "'NoneType' object has no attribute 'lower'")
    | Some name =>
        if decide (lower competitor ≠ lower name)
        then Return (competitors ++ [competitor])
        else Return competitors
    end
  else Return competitors.

(** The loop of [_extract_insights] over the hits, before deduplication. *)
Definition fold_insights (re_search : string → string → outcome (option string))
    (company : Company) (acc : outcome dict) (hits : list search_result)
    : outcome dict :=
  foldl (fun acc result => insights ← acc; insights_step re_search company insights result)
        acc hits.

(** The text the extractor reads from a hit. *)
Definition hit_text (result : search_result) : string :=
  _clean_text (default "" (snippet result)).

(** The three dictionary updates of one pass of the loop of
    [_extract_insights], after the value proposition. *)
Definition with_products (products : list string) (insights : dict) : dict :=
  match products with
  | [] => insights
  | _ :: _ =>
      <["product_names" :=
          FList (list_set (get_list insights "product_names" ++ products))]> insights
  end.

Definition with_pricing (text : string) (insights : dict) : dict :=
  if get_truthy insights "pricing_model" then insights
  else <["pricing_model" := of_option (_extract_pricing text)]> insights.

Definition with_competitors (competitors : list string) (insights : dict) : dict :=
  match competitors with
  | [] => insights
  | _ :: _ =>
      <["key_competitors" :=
          FList (list_set (get_list insights "key_competitors" ++ competitors))]> insights
  end.

(** The database writes of a trace. *)
Definition saved (t : list action) : list (string * dict * list string) :=
  omap (fun a => match a with
                 | Saved company_id payload urls => Some (company_id, payload, urls)
                 | _ => None
                 end) t.

(** The overview query of the first pass. *)
Definition overview_query (company : Company) : string :=
  fmt (c_name company) +:+ " company overview products pricing".

(** The keys written by [complete_research]. *)
Definition completed_patch_keys : list string :=
  [ "status"; "progress"; "current_step"; "completion_time"; "results" ].

(** The keys written at every step of the simulated run. *)
Definition in_progress_keys : list string :=
  [ "status"; "progress"; "current_step"; "steps_completed"; "estimated_completion" ].

(** The result entries gathered by the steps [first], ..., [first + count - 1]. *)
Definition entry_at (i : nat) : list json :=
  if decide (i = 1%nat) then [company_info_entry]
  else if decide (i = 3%nat) then [competitive_intel_entry]
  else [].

Definition gathered (first count : nat) : list json :=
  concat (entry_at <$> seq first count).

(** A process that removes session "s1" whenever a run sleeps. *)
Definition always_cleaning (i : nat) (reg : registry) : registry :=
  progress_data (cleanup_session "s1" (mkService ∅ reg ∅ [])).

(** A provider that never finds anything. *)
Definition silent_provider : SearchProvider :=
  mkProvider (fun _ _ => Return []) mock_table.

(** The hits of the first two answers of [varying_provider], the last of
    them alone, and what the agent's extractor yields on the first answer
    followed by that hit. *)
Definition first_hits : list search_result :=
  [ mkResult (Some "  software on subscription ") (Some "https://a.example") ].

Definition second_hits : list search_result :=
  [ mkResult (Some "cloud hosting") None;
    mkResult (Some "freemium plans by Oracle") (Some "https://b.example") ].

Definition later_hits : list search_result :=
  [ mkResult (Some "freemium plans by Oracle") (Some "https://b.example") ].

Definition joint_extraction : dict :=
  <["company_value_prop" := FNone]>
  (<["product_names" := FList ["Software"]]>
  (<["pricing_model" := FStr "Subscription-based pricing model"]>
  (<["key_competitors" := FList ["Oracle"]]> ∅))).

(** The pricing label of the first hit, in order, whose text names a pricing
    keyword. *)
Definition first_pricing (hits : list search_result) : option string :=
  head (omap (fun h => _extract_pricing (hit_text h)) hits).

(** * Properties of the research agent *)

(** ** The query planner *)

Lemma append_nonempty_r (s t : string) :
  is_empty t = false → is_empty (s +:+ t) = false.
Proof. destruct s as [|c s]; simpl; [done|]. by intros _. Qed.

Lemma missing_iff (current_results : dict) (field : string) :
  field ∈ _get_missing_fields current_results ↔
  field ∈ required_fields ∧ get_truthy current_results field = false.
Proof. unfold _get_missing_fields. rewrite list_elem_of_filter. tauto. Qed.

(** A missing field is one the dictionary lacks or holds a falsy value
    for. *)
Lemma get_truthy_false (d : dict) (k : string) :
  get_truthy d k = false ↔ d !! k = None ∨ ∃ v, d !! k = Some v ∧ truthy v = false.
Proof.
  unfold get_truthy. destruct (d !! k) as [v|]; split; eauto.
  intros [?|(? & ? & ?)]; congruence.
Qed.

(** The agent's truth test on a stored value is the specification's
    "non-empty". *)
Lemma get_truthy_holds_field (current_results : dict) (field : string) :
  get_truthy current_results field = holds_field current_results field.
Proof.
  unfold get_truthy, holds_field.
  destruct (current_results !! field) as [[|[|c s]|[|x l]]|]; reflexivity.
Qed.

(** The fields the agent lists as missing are the required fields the result
    set does not hold. *)
Lemma missing_holds_field (current_results : dict) (field : string) :
  field ∈ required_fields →
  (field ∈ _get_missing_fields current_results
   ↔ holds_field current_results field = false).
Proof.
  intros Hreq. rewrite missing_iff, get_truthy_holds_field. tauto.
Qed.

(** C7: the planner never returns the empty string and agrees, at every
    iteration, with the planner of the specification: the overview query at
    iteration 0, afterwards the template of the first field, in the order
    value proposition, pricing model, competitors, that the result set lacks
    or holds empty, else the fallback built from the company's name and
    domain. *)
Theorem generate_search_query_plan (company : Company) (person : Person)
    (current_results : dict) (iteration : nat) :
  is_empty (_generate_search_query company person current_results iteration) = false
  ∧ _generate_search_query company person current_results iteration
    = planned_query company current_results iteration.
Proof.
  split.
  - unfold _generate_search_query.
    repeat case_decide; repeat (apply append_nonempty_r; try done).
  - unfold _generate_search_query, planned_query.
    destruct iteration as [|n]; [by rewrite decide_True|].
    rewrite decide_False by done. cbv zeta.
    unfold first_missing, priority_order, first_missing_of.
    assert (Hv : "company_value_prop" ∈ required_fields)
      by (unfold required_fields; repeat constructor).
    assert (Hp : "pricing_model" ∈ required_fields)
      by (unfold required_fields; repeat constructor).
    assert (Hc : "key_competitors" ∈ required_fields)
      by (unfold required_fields; repeat constructor).
    pose proof (missing_holds_field current_results _ Hv) as Mv.
    pose proof (missing_holds_field current_results _ Hp) as Mp.
    pose proof (missing_holds_field current_results _ Hc) as Mc.
    destruct (holds_field current_results "company_value_prop");
      destruct (holds_field current_results "pricing_model");
      destruct (holds_field current_results "key_competitors");
      repeat case_decide; simpl; try reflexivity; exfalso;
      match goal with
      | H : ?P ↔ true = false, K : ?P |- _ => apply H in K; discriminate K
      | H : ?P ↔ false = false, K : ¬ ?P |- _ => apply K, H; reflexivity
      end.
Qed.

(** ** The orchestration loop *)

Section Loop.

Variable provider : SearchProvider.
Variable extract : list search_result → Company → outcome dict.
Variable progress_callback : bool.
Variable company : Company.
Variable person : Person.

Local Abbreviation loop := (research_loop provider extract progress_callback).

Lemma research_loop_stop fuel iteration results sr :
  continues iteration results = false →
  loop fuel company person iteration results sr = ([], Some (Return (results, sr))).
Proof.
  unfold continues. intros Hg. destruct fuel; simpl; by rewrite Hg.
Qed.

Lemma research_loop_fuel0 iteration results sr :
  continues iteration results = true →
  loop 0 company person iteration results sr = ([], None).
Proof. unfold continues. intros Hg. simpl. by rewrite Hg. Qed.

Lemma research_loop_step fuel iteration results sr :
  continues iteration results = true →
  loop (S fuel) company person iteration results sr =
  let query := _generate_search_query company person results iteration in
  match search provider iteration query with
  | Raise e => ([Searched query], Some (Raise e))
  | Return hits =>
      match extract hits company with
      | Raise e => ([Searched query], Some (Raise e))
      | Return extracted =>
          let results' := dict_update results extracted in
          let rest := loop fuel company person (iteration + 1) results' (Some hits) in
          (Searched query :: Merged results'
             :: callback_events progress_callback iteration results' ++ rest.1,
           rest.2)
      end
  end.
Proof.
  unfold continues, callback_events. intros Hg. simpl. rewrite Hg.
  unfold mbind, run_bind, perform, lift, mret, run_ret. simpl.
  destruct (search provider iteration _) as [hits|e]; [|done].
  destruct (extract hits company) as [extracted|e]; [|done].
  destruct progress_callback; simpl;
    by destruct (research_loop _ _ _ _ _ _ _ _ _) as [t' o'].
Qed.

Lemma searched_step query results iteration t :
  searched (Searched query :: Merged results
              :: callback_events progress_callback iteration results ++ t)
  = query :: searched t.
Proof. unfold callback_events. by destruct progress_callback. Qed.

Lemma merged_step query results iteration t :
  merged (Searched query :: Merged results
              :: callback_events progress_callback iteration results ++ t)
  = results :: merged t.
Proof. unfold callback_events. by destruct progress_callback. Qed.

Lemma progressed_step query results iteration t :
  progressed (Searched query :: Merged results
              :: callback_events progress_callback iteration results ++ t)
  = (if progress_callback then [_create_progress_update iteration results] else [])
    ++ progressed t.
Proof. unfold callback_events. by destruct progress_callback. Qed.

(** The loop starts a pass only under its guard. *)
Lemma searched_nonempty_continues fuel iteration results sr :
  searched (loop fuel company person iteration results sr).1 ≠ [] →
  continues iteration results = true.
Proof.
  destruct (continues iteration results) eqn:Hg; [done|].
  by rewrite research_loop_stop.
Qed.

(** Every pass below the bound: the number of searches never exceeds what
    is left of [max_iterations], whatever the fuel. *)
Lemma loop_searches_bound fuel iteration results sr :
  (length (searched (loop fuel company person iteration results sr).1)
   ≤ max_iterations - iteration)%nat.
Proof.
  revert iteration results sr.
  induction fuel as [|fuel IH]; intros iteration results sr;
    destruct (continues iteration results) eqn:Hg.
  - rewrite research_loop_fuel0 by done. simpl. lia.
  - rewrite research_loop_stop by done. simpl. lia.
  - assert (iteration < max_iterations)%nat as Hlt.
    { unfold continues in Hg. apply andb_true_iff in Hg as [Hlt _].
      by apply Nat.ltb_lt in Hlt. }
    rewrite research_loop_step by done. cbv zeta.
    destruct (search provider iteration _) as [hits|e]; [|simpl; lia].
    destruct (extract hits company) as [extracted|e]; [|simpl; lia].
    cbn [fst]. rewrite searched_step. cbn [length].
    specialize (IH (iteration + 1)%nat (dict_update results extracted) (Some hits)).
    lia.
  - rewrite research_loop_stop by done. simpl. lia.
Qed.

Lemma continues_lt iteration results :
  continues iteration results = true →
  (iteration < max_iterations)%nat ∧ _all_fields_found results = false.
Proof.
  unfold continues. intros [Hlt Hf]%andb_true_iff.
  apply Nat.ltb_lt in Hlt. by apply negb_true_iff in Hf.
Qed.

(** A pass that is followed by another one left some required field empty,
    and the next pass is still below the bound. *)
Lemma loop_continues_only_while fuel iteration results sr k :
  (S k < length (searched (loop fuel company person iteration results sr).1))%nat →
  ∃ rk, merged (loop fuel company person iteration results sr).1 !! k = Some rk
        ∧ _all_fields_found rk = false
        ∧ (iteration + S k < max_iterations)%nat.
Proof.
  revert iteration results sr k.
  induction fuel as [|fuel IH]; intros iteration results sr k;
    destruct (continues iteration results) eqn:Hg.
  - rewrite research_loop_fuel0 by done. simpl. lia.
  - rewrite research_loop_stop by done. simpl. lia.
  - rewrite research_loop_step by done. cbv zeta.
    destruct (search provider iteration _) as [hits|e]; [|simpl; lia].
    destruct (extract hits company) as [extracted|e]; [|simpl; lia].
    cbn [fst]. rewrite searched_step, merged_step. cbn [length]. intros Hk.
    destruct k as [|k].
    + exists (dict_update results extracted). split; [done|].
      assert (continues (iteration + 1) (dict_update results extracted) = true) as Hg'.
      { apply (searched_nonempty_continues fuel _ _ (Some hits)).
        intros Hnil. rewrite Hnil in Hk. simpl in Hk. lia. }
      apply continues_lt in Hg' as [? ?]. split; [done|lia].
    + destruct (IH (iteration + 1)%nat (dict_update results extracted) (Some hits) k)
        as (rk & Hrk & Hf & Hlt); [lia|].
      exists rk. split; [done|]. split; [done|lia].
  - rewrite research_loop_stop by done. simpl. lia.
Qed.

(** Once a merge leaves every required field filled, no further pass
    starts. *)
Lemma loop_stops_when_found fuel iteration results sr k rk :
  merged (loop fuel company person iteration results sr).1 !! k = Some rk →
  _all_fields_found rk = true →
  length (searched (loop fuel company person iteration results sr).1) = S k.
Proof.
  revert iteration results sr k.
  induction fuel as [|fuel IH]; intros iteration results sr k;
    destruct (continues iteration results) eqn:Hg.
  - by rewrite research_loop_fuel0.
  - by rewrite research_loop_stop.
  - rewrite research_loop_step by done. cbv zeta.
    destruct (search provider iteration _) as [hits|e]; [|done].
    destruct (extract hits company) as [extracted|e]; [|done].
    cbn [fst]. rewrite searched_step, merged_step. cbn [length].
    destruct k as [|k]; simpl.
    + intros [= <-] Hf. rewrite research_loop_stop; [done|].
      unfold continues. by rewrite Hf, andb_false_r.
    + intros Hrk Hf. f_equal. by eapply IH.
  - by rewrite research_loop_stop.
Qed.

(** With enough fuel the loop does go on while its guard holds ... *)
Lemma loop_goes_on fuel iteration results sr k rk :
  (max_iterations - iteration ≤ fuel)%nat →
  merged (loop fuel company person iteration results sr).1 !! k = Some rk →
  _all_fields_found rk = false →
  (iteration + S k < max_iterations)%nat →
  (S k < length (searched (loop fuel company person iteration results sr).1))%nat.
Proof.
  revert iteration results sr k.
  induction fuel as [|fuel IH]; intros iteration results sr k Hfuel;
    destruct (continues iteration results) eqn:Hg.
  - by rewrite research_loop_fuel0.
  - by rewrite research_loop_stop.
  - rewrite research_loop_step by done. cbv zeta.
    destruct (search provider iteration _) as [hits|e]; [|done].
    destruct (extract hits company) as [extracted|e]; [|done].
    cbn [fst]. rewrite searched_step, merged_step. cbn [length].
    destruct k as [|k]; simpl.
    + intros [= <-] Hf Hlt.
      assert (continues (iteration + 1) (dict_update results extracted) = true) as Hg'.
      { unfold continues. rewrite Hf, andb_true_r. apply Nat.ltb_lt. lia. }
      destruct fuel as [|fuel]; [lia|].
      rewrite research_loop_step by done. cbv zeta.
      destruct (search provider (iteration + 1) _) as [hits'|e]; [|simpl; lia].
      destruct (extract hits' company) as [extracted'|e]; [|simpl; lia].
      cbn [fst]. rewrite searched_step. simpl. lia.
    + intros Hrk Hf Hlt.
      apply (IH (iteration + 1)%nat) in Hrk; [lia|lia|done|lia].
  - by rewrite research_loop_stop.
Qed.

(** ... and fuel [max_iterations] is enough for the loop to end by itself. *)
Lemma loop_fuel_enough fuel iteration results sr :
  (max_iterations - iteration ≤ fuel)%nat →
  is_Some (loop fuel company person iteration results sr).2.
Proof.
  revert iteration results sr.
  induction fuel as [|fuel IH]; intros iteration results sr Hfuel;
    destruct (continues iteration results) eqn:Hg.
  - apply continues_lt in Hg as [? ?]. lia.
  - by rewrite research_loop_stop.
  - apply continues_lt in Hg as Hg'. destruct Hg' as [? ?].
    rewrite research_loop_step by done. cbv zeta.
    destruct (search provider iteration _) as [hits|e]; [|done].
    destruct (extract hits company) as [extracted|e]; [|done].
    cbn [snd]. apply IH. lia.
  - by rewrite research_loop_stop.
Qed.

(** More fuel than needed changes nothing. *)
Lemma loop_fuel_irrelevant fuel iteration results sr :
  (max_iterations - iteration ≤ fuel)%nat →
  loop fuel company person iteration results sr
  = loop (max_iterations - iteration) company person iteration results sr.
Proof.
  revert iteration results sr.
  induction fuel as [|fuel IH]; intros iteration results sr Hfuel;
    destruct (continues iteration results) eqn:Hg.
  - apply continues_lt in Hg as [? ?]. lia.
  - by rewrite !research_loop_stop.
  - apply continues_lt in Hg as Hg'. destruct Hg' as [? ?].
    destruct (max_iterations - iteration)%nat as [|n] eqn:Hn; [lia|].
    rewrite !research_loop_step by done. cbv zeta.
    destruct (search provider iteration _) as [hits|e]; [|done].
    destruct (extract hits company) as [extracted|e]; [|done].
    rewrite IH by lia.
    by replace (max_iterations - (iteration + 1))%nat with n by lia.
  - by rewrite !research_loop_stop.
Qed.

End Loop.

(** ** Whole runs *)

Lemma get_truthy_true (d : dict) (k : string) :
  get_truthy d k = true ↔ ∃ v, d !! k = Some v ∧ truthy v = true.
Proof.
  unfold get_truthy. destruct (d !! k) as [v|]; split.
  - intros Hv. by exists v.
  - by intros (v' & [= <-] & Hv).
  - done.
  - by intros (v' & ? & _).
Qed.

Lemma all_fields_found_spec (results : dict) :
  _all_fields_found results = true ↔ all_required_present results.
Proof.
  unfold _all_fields_found, all_required_present.
  rewrite forallb_forall. split.
  - intros H field Hin. apply get_truthy_true, H. by apply list_elem_of_In.
  - intros H field Hin. apply get_truthy_true, H. by apply list_elem_of_In.
Qed.

Lemma all_fields_found_false (results : dict) :
  _all_fields_found results = false ↔ ¬ all_required_present results.
Proof.
  rewrite <- all_fields_found_spec. by destruct (_all_fields_found results).
Qed.

Section Run.

Variable provider : SearchProvider.
Variable extract : list search_result → Company → outcome dict.
Variable progress_callback : bool.

(** A run on a person whose company resolves: the loop, then the table
    lookup, the validation and the save. *)
Lemma research_person_resolved fuel db person_id person company :
  people db !! person_id = Some person →
  p_company_id person ≫= (fun cid => companies db !! cid) = Some company →
  research_person_fuel provider extract progress_callback fuel db person_id =
  match research_loop provider extract progress_callback fuel company person 0 ∅ None with
  | (t, Some (Return (results, sr))) =>
      match selected_results provider company with
      | Raise e => (t, Some (Raise e))
      | Return table_results =>
          match sr with
          | None => (t, Some (Raise (NameError "search_results")))
          | Some hits =>
              (t ++ [Saved (c_id company) (_validate_results table_results) (source_urls hits)],
               Some (Return (_validate_results table_results)))
          end
      end
  | (t, Some (Raise e)) => (t, Some (Raise e))
  | (t, None) => (t, None)
  end.
Proof.
  intros Hp Hc. unfold research_person_fuel, selected_results. rewrite Hp, Hc.
  destruct (research_loop _ _ _ _ _ _ _ _ _) as [t [[[results sr]|e]|]]; [|done..].
  unfold mbind, run_bind, lift, mret, run_ret, _save_context_snippet, perform.
  destruct (if contains "alpha" (company_key company) then _ else _) as [tr|e];
    [|by rewrite app_nil_r].
  destruct sr as [hits|]; simpl; by rewrite ?app_nil_r.
Qed.

Lemma research_person_unresolved fuel db person_id :
  people db !! person_id ≫= (fun person =>
    p_company_id person ≫= (fun cid => companies db !! cid)) = None →
  ∃ msg, research_person_fuel provider extract progress_callback fuel db person_id
         = ([], Some (Raise (ValueError msg))).
Proof.
  unfold research_person_fuel. intros H.
  destruct (people db !! person_id) as [person|]; simpl in H; [|by eexists].
  rewrite H. by eexists.
Qed.

(** The searches and merges of a run are those of its loop. *)
Lemma research_person_loop_trace fuel db person_id person company :
  people db !! person_id = Some person →
  p_company_id person ≫= (fun cid => companies db !! cid) = Some company →
  let t := (research_person_fuel provider extract progress_callback fuel db person_id).1 in
  let t' := (research_loop provider extract progress_callback fuel company person 0 ∅ None).1 in
  searched t = searched t' ∧ merged t = merged t' ∧ progressed t = progressed t'.
Proof.
  intros Hp Hc. cbv zeta. rewrite (research_person_resolved _ _ _ _ _ Hp Hc).
  destruct (research_loop _ _ _ _ _ _ _ _ _) as [t [[[results sr]|e]|]]; [|done..].
  destruct (selected_results provider company); [|done].
  destruct sr; [|done]. cbn [fst].
  unfold searched, merged, progressed. rewrite !omap_app. simpl.
  by rewrite !app_nil_r.
Qed.

End Run.

(** C2: whatever the search provider and the extractor do, and whatever the
    fuel, a run starts at most 3 passes; once the merge of pass [k] leaves
    all five required fields present and non-empty, pass [k] is the last
    one; a pass [k+1] is started only if [k+1] is below 3 and the merge of
    pass [k] left some required field empty; with the fuel of
    [research_person] the loop indeed goes on in that case, and the run
    ends by itself. *)
Theorem research_person_iterations
    (provider : SearchProvider)
    (extract : list search_result → Company → outcome dict)
    (progress_callback : bool) (fuel : nat) (db : database) (person_id : string) :
  let t := (research_person_fuel provider extract progress_callback fuel db person_id).1 in
  (length (searched t) ≤ 3)%nat
  ∧ (∀ k rk, merged t !! k = Some rk → all_required_present rk →
       length (searched t) = S k)
  ∧ (∀ k, (S k < length (searched t))%nat →
       (S k < 3)%nat ∧ ∃ rk, merged t !! k = Some rk ∧ ¬ all_required_present rk)
  ∧ ((3 ≤ fuel)%nat → ∀ k rk, merged t !! k = Some rk → ¬ all_required_present rk →
       (S k < 3)%nat → (S k < length (searched t))%nat)
  ∧ ((3 ≤ fuel)%nat →
       is_Some (research_person_fuel provider extract progress_callback fuel db person_id).2).
Proof.
  cbv zeta.
  destruct (people db !! person_id ≫= (fun person =>
    p_company_id person ≫= (fun cid => companies db !! cid))) as [company|] eqn:Hres.
  - destruct (people db !! person_id) as [person|] eqn:Hp; [|done]. simpl in Hres.
    destruct (research_person_loop_trace provider extract progress_callback
                fuel db person_id person company Hp Hres) as (Hs & Hm & _).
    rewrite Hs, Hm. split; [|split; [|split; [|split]]].
    + apply (loop_searches_bound provider extract progress_callback company person fuel 0).
    + intros k rk Hk Hall. eapply loop_stops_when_found; [done|].
      by apply all_fields_found_spec.
    + intros k Hk.
      apply loop_continues_only_while in Hk as (rk & Hrk & Hf & Hlt).
      split; [unfold max_iterations in Hlt; lia|].
      exists rk. split; [done|]. by apply all_fields_found_false.
    + intros Hfuel k rk Hk Hnot Hlt.
      eapply loop_goes_on; [unfold max_iterations; lia|done| |done].
      by apply all_fields_found_false.
    + intros Hfuel. rewrite (research_person_resolved _ _ _ _ _ _ _ _ Hp Hres).
      pose proof (loop_fuel_enough provider extract progress_callback company person
                    fuel 0 ∅ None) as Hsome.
      destruct (research_loop _ _ _ _ _ _ _ _ _) as [t [[[results sr]|e]|]]; simpl in *.
      * destruct (selected_results provider company); [|done]. by destruct sr.
      * done.
      * destruct Hsome as [x Hx]; [unfold max_iterations; lia|discriminate].
  - destruct (research_person_unresolved provider extract progress_callback
                fuel db person_id Hres) as [msg ->].
    simpl. split; [lia|]. split; [done|]. split; [intros k Hk; lia|].
    split; [done|]. by intros _.
Qed.

(** ** Unresolved targets *)

(** C5, as amended: when the person or the person's company does not
    resolve, the run does nothing at all (no search, no progress event, no
    save) and ends by raising [ValueError]. *)
Theorem research_person_not_found
    (provider : SearchProvider)
    (extract : list search_result → Company → outcome dict)
    (progress_callback : bool) (db : database) (person_id : string) :
  resolve db person_id = None →
  (research_person provider extract progress_callback db person_id).1 = []
  ∧ ∃ msg, (research_person provider extract progress_callback db person_id).2
           = Some (Raise (ValueError msg)).
Proof.
  intros Hres.
  destruct (research_person_unresolved provider extract progress_callback
              max_iterations db person_id Hres) as [msg Hrun].
  unfold research_person. rewrite Hrun. split; [done|]. by exists msg.
Qed.

Lemma research_person_not_found_witness :
  resolve sample_db "p4" = None
  ∧ (DeepResearchAgent re_never None true sample_db "p4").1 = []
  ∧ ∃ msg, (DeepResearchAgent re_never None true sample_db "p4").2
           = Some (Raise (ValueError msg)).
Proof.
  assert (resolve sample_db "p4" = None) as R by by_evaluation.
  split; [exact R|].
  exact (research_person_not_found MockSearchProvider (_extract_insights re_never)
           true sample_db "p4" R).
Defined.

(** C5, as worded, fails: for an unknown person the outcome is a raised
    exception, not a returned value. *)
Lemma research_person_not_found_raises :
  ¬ returns_normally (DeepResearchAgent re_never None true sample_db "nobody").
Proof. intros [v Hv]. by vm_compute in Hv. Qed.

(** ** The returned result *)

Lemma company_key_alpha (company : Company) :
  contains "alpha" (company_key company) = name_has_alpha (c_name company).
Proof.
  unfold company_key, name_has_alpha.
  destruct (c_name company) as [[|c name]|]; done.
Qed.

Lemma validate_alpha : _validate_results alpha_results = alpha_results.
Proof. by_evaluation. Qed.

Lemma validate_techcorp : _validate_results techcorp_results = techcorp_results.
Proof. by_evaluation. Qed.

Lemma mock_table_alpha : table_get mock_table "alpha" = Return alpha_results.
Proof. by_evaluation. Qed.

Lemma mock_table_techcorp : table_get mock_table "techcorp" = Return techcorp_results.
Proof. by_evaluation. Qed.

(** What a completed run returns is decided by the provider's table and
    the company's name alone. *)
Lemma research_person_returns
    (provider : SearchProvider)
    (extract : list search_result → Company → outcome dict)
    (progress_callback : bool) (fuel : nat) (db : database) (person_id : string)
    (company : Company) (r : dict) :
  resolve db person_id = Some company →
  (research_person_fuel provider extract progress_callback fuel db person_id).2
    = Some (Return r) →
  ∃ table_results,
    selected_results provider company = Return table_results
    ∧ r = _validate_results table_results.
Proof.
  unfold resolve. intros Hres.
  destruct (people db !! person_id) as [person|] eqn:Hp; [|done]. simpl in Hres.
  rewrite (research_person_resolved _ _ _ _ _ _ _ _ Hp Hres).
  destruct (research_loop _ _ _ _ _ _ _ _ _) as [t [[[results sr]|e]|]]; [|done..].
  destruct (selected_results provider company) as [table_results|e]; [|done].
  destruct sr as [hits|]; [|done]. simpl. intros [= <-]. by exists table_results.
Qed.

(** C4: two completed runs on companies of the same name return the same
    result, whatever the two providers answered, whatever the two
    extractors extracted and whether or not a callback listened: the result
    is the [alpha] entry of the hard-coded table when the lowercased name
    contains "alpha" and the [techcorp] entry otherwise. *)
Theorem research_person_result_by_name
    (search1 search2 : nat → string → outcome (list search_result))
    (extract1 extract2 : list search_result → Company → outcome dict)
    (callback1 callback2 : bool) (db1 db2 : database)
    (person_id1 person_id2 : string) (company1 company2 : Company)
    (r1 r2 : dict) :
  resolve db1 person_id1 = Some company1 →
  resolve db2 person_id2 = Some company2 →
  c_name company1 = c_name company2 →
  (research_person (mkProvider search1 mock_table) extract1 callback1 db1 person_id1).2
    = Some (Return r1) →
  (research_person (mkProvider search2 mock_table) extract2 callback2 db2 person_id2).2
    = Some (Return r2) →
  r1 = r2
  ∧ r1 = if name_has_alpha (c_name company1) then alpha_results else techcorp_results.
Proof.
  intros Hres1 Hres2 Hname Hrun1 Hrun2.
  apply (research_person_returns _ _ _ _ _ _ _ _ Hres1) in Hrun1
    as (t1 & Hsel1 & ->).
  apply (research_person_returns _ _ _ _ _ _ _ _ Hres2) in Hrun2
    as (t2 & Hsel2 & ->).
  unfold selected_results in Hsel1, Hsel2. cbn [mock_results] in Hsel1, Hsel2.
  rewrite company_key_alpha in Hsel1, Hsel2. rewrite <- Hname in Hsel2.
  destruct (name_has_alpha (c_name company1)).
  - rewrite mock_table_alpha in Hsel1, Hsel2.
    injection Hsel1 as <-. injection Hsel2 as <-.
    split; [reflexivity|apply validate_alpha].
  - rewrite mock_table_techcorp in Hsel1, Hsel2.
    injection Hsel1 as <-. injection Hsel2 as <-.
    split; [reflexivity|apply validate_techcorp].
Qed.

Lemma research_person_result_by_name_witness :
  resolve sample_db "p2" = Some alpha_pro
  ∧ resolve sample_db "p3" = Some alpha_twin
  ∧ (DeepResearchAgent re_never None true sample_db "p2").2 = Some (Return alpha_results)
  ∧ (DeepResearchAgent re_never (Some varying_provider) false sample_db "p3").2
    = Some (Return alpha_results)
  ∧ alpha_results = alpha_results
  ∧ alpha_results = if name_has_alpha (Some "Alpha Pro Tech")
                    then alpha_results else techcorp_results.
Proof.
  assert ((DeepResearchAgent re_never None true sample_db "p2").2
          = Some (Return alpha_results)) as H1 by by_evaluation.
  assert ((DeepResearchAgent re_never (Some varying_provider) false sample_db "p3").2
          = Some (Return alpha_results)) as H2 by by_evaluation.
  assert (resolve sample_db "p2" = Some alpha_pro) as R1 by by_evaluation.
  assert (resolve sample_db "p3" = Some alpha_twin) as R2 by by_evaluation.
  split; [exact R1|]. split; [exact R2|].
  split; [exact H1|]. split; [exact H2|].
  exact (research_person_result_by_name
           (fun _ query => Return (mock_search query)) varying_search
           (_extract_insights re_never) (_extract_insights re_never)
           true false sample_db sample_db "p2" "p3" alpha_pro alpha_twin
           alpha_results alpha_results R1 R2 eq_refl H1 H2).
Defined.

(** ** Progress events of a run *)

Section Events.

Variable provider : SearchProvider.
Variable extract : list search_result → Company → outcome dict.
Variable progress_callback : bool.
Variable company : Company.
Variable person : Person.

Local Abbreviation loop := (research_loop provider extract progress_callback).

(** The callback hears of every merge, in order, and of nothing else. *)
Lemma loop_progressed fuel iteration results sr :
  progressed (loop fuel company person iteration results sr).1 =
  if progress_callback
  then imap (fun k rk => _create_progress_update (iteration + k) rk)
            (merged (loop fuel company person iteration results sr).1)
  else [].
Proof.
  revert iteration results sr.
  induction fuel as [|fuel IH]; intros iteration results sr;
    destruct (continues iteration results) eqn:Hg.
  - rewrite research_loop_fuel0 by done. by destruct progress_callback.
  - rewrite research_loop_stop by done. by destruct progress_callback.
  - rewrite research_loop_step by done. cbv zeta.
    destruct (search provider iteration _) as [hits|e];
      [|by destruct progress_callback].
    destruct (extract hits company) as [extracted|e];
      [|by destruct progress_callback].
    cbn [fst]. rewrite progressed_step, merged_step, IH.
    destruct progress_callback; [|done].
    rewrite imap_cons. simpl. rewrite Nat.add_0_r. f_equal.
    apply imap_ext. intros k rk _. simpl. f_equal. lia.
  - rewrite research_loop_stop by done. by destruct progress_callback.
Qed.

(** An extractor that never yields a domain never completes the field set,
    so a loop that ends by itself has gone through all its passes. *)
Hypothesis extract_no_domain : ∀ hits c extracted,
  extract hits c = Return extracted → extracted !! "company_domain" = None.

Lemma no_domain_not_found (results : dict) :
  results !! "company_domain" = None → _all_fields_found results = false.
Proof.
  intros H. unfold _all_fields_found, required_fields. simpl.
  unfold get_truthy at 5. rewrite H. by rewrite !andb_false_r.
Qed.

Lemma loop_all_passes fuel iteration results sr x :
  results !! "company_domain" = None →
  (iteration ≤ max_iterations)%nat →
  (loop fuel company person iteration results sr).2 = Some (Return x) →
  length (merged (loop fuel company person iteration results sr).1)
  = (max_iterations - iteration)%nat.
Proof.
  revert iteration results sr.
  induction fuel as [|fuel IH]; intros iteration results sr Hdom Hle;
    destruct (continues iteration results) eqn:Hg.
  - by rewrite research_loop_fuel0.
  - rewrite research_loop_stop by done. simpl. intros _.
    unfold continues in Hg. rewrite (no_domain_not_found _ Hdom), andb_true_r in Hg.
    apply Nat.ltb_ge in Hg. lia.
  - apply continues_lt in Hg as Hg'. destruct Hg' as [Hlt _].
    rewrite research_loop_step by done. cbv zeta.
    destruct (search provider iteration _) as [hits|e]; [|done].
    destruct (extract hits company) as [extracted|e] eqn:Hex; [|done].
    cbn [fst snd]. rewrite merged_step. intros Hret. cbn [length].
    rewrite (IH (iteration + 1)%nat) ; [lia| |lia|done].
    unfold dict_update. rewrite lookup_union_None. eauto.
  - rewrite research_loop_stop by done. simpl. intros _.
    unfold continues in Hg. rewrite (no_domain_not_found _ Hdom), andb_true_r in Hg.
    apply Nat.ltb_ge in Hg. lia.
Qed.

End Events.

(** The agent's own extractor writes four keys only. *)
Section ExtractorKeys.

Variable re_search : string → string → outcome (option string).

Lemma extracted_keys_in (k : string) :
  k ∈ extracted_keys ↔
  k = "company_value_prop" ∨ k = "product_names" ∨ k = "pricing_model"
  ∨ k = "key_competitors".
Proof.
  unfold extracted_keys. rewrite !elem_of_union, !elem_of_singleton. tauto.
Qed.

Lemma insert_keys (k : string) (v : field_value) (m : dict) :
  k ∈ extracted_keys → dom m ⊆ extracted_keys →
  dom (<[k := v]> m) ⊆ extracted_keys.
Proof.
  intros Hk Hm. rewrite dom_insert_L. apply union_least; [|done].
  by apply singleton_subseteq_l.
Qed.

Ltac keys_step :=
  repeat match goal with
         | |- dom (match ?l with [] => _ | _ :: _ => _ end) ⊆ _ => destruct l
         | |- dom (match ?o with Some _ => _ | None => _ end) ⊆ _ => destruct o
         | |- dom (if ?b then _ else _) ⊆ _ => destruct b
         | |- dom (<[ _ := _ ]> _) ⊆ _ =>
             apply insert_keys; [apply extracted_keys_in; tauto|]
         end; try assumption.

Lemma insights_step_keys company insights result insights' :
  dom insights ⊆ extracted_keys →
  insights_step re_search company insights result = Return insights' →
  dom insights' ⊆ extracted_keys.
Proof.
  intros Hdom. unfold insights_step.
  destruct (get_truthy insights "company_value_prop").
  - simpl. destruct (_extract_competitors _ _) as [competitors|e]; [|done]. simpl.
    intros [= <-]. keys_step.
  - simpl. destruct (_extract_value_prop _ _ _) as [vp|e]; [|done]. simpl.
    destruct (_extract_competitors _ _) as [competitors|e]; [|done]. simpl.
    intros [= <-]. keys_step.
Qed.

Lemma extract_insights_keys hits company extracted :
  _extract_insights re_search hits company = Return extracted →
  dom extracted ⊆ extracted_keys.
Proof.
  unfold _extract_insights.
  assert (∀ acc insights,
    (∀ i0, acc = Return i0 → dom i0 ⊆ extracted_keys) →
    foldl (fun acc result => insights ← acc; insights_step re_search company insights result)
          acc hits = Return insights →
    dom insights ⊆ extracted_keys) as Hfold.
  { induction hits as [|hit hits IH]; intros acc insights Hacc; simpl.
    - intros ->. by apply Hacc.
    - apply IH. intros i0. destruct acc as [i1|e]; [|done]. simpl.
      apply insights_step_keys. by apply Hacc. }
  destruct (foldl _ _ hits) as [insights|e] eqn:Hf; [|done]. simpl. intros [= <-].
  apply Hfold in Hf; [|by intros i0 [= <-]].
  unfold _deduplicate_insights. keys_step.
Qed.

Lemma extract_insights_no_domain hits company extracted :
  _extract_insights re_search hits company = Return extracted →
  extracted !! "company_domain" = None.
Proof.
  intros H%extract_insights_keys. apply not_elem_of_dom.
  intros Hin. apply H, extracted_keys_in in Hin.
  by destruct Hin as [?|[?|[?|?]]].
Qed.

End ExtractorKeys.

(** ** Validation *)

Lemma validate_fold (results : dict) (fields : list string) (acc : dict) (k : string) :
  foldl (keep_valid results) acc fields !! k =
  if decide (k ∈ fields ∧ get_truthy results k = true) then results !! k else acc !! k.
Proof.
  revert acc. induction fields as [|f fields IH]; intros acc; cbn [foldl].
  - destruct (decide _) as [[H _]|]; [by apply elem_of_nil in H|done].
  - rewrite IH. clear IH.
    destruct (decide (k ∈ fields ∧ get_truthy results k = true)) as [[Hin Ht]|Hn].
    + destruct (decide _) as [|Hn']; [done|]. destruct Hn'. split; [by right|done].
    + destruct (decide (k = f)) as [->|Hne].
      * unfold keep_valid, get_truthy in *. destruct (results !! f) as [v|] eqn:Hf.
        -- destruct (truthy v) eqn:Hv.
           ++ rewrite lookup_insert_eq. destruct (decide _) as [|Hn']; [done|].
              destruct Hn'. split; [by left|done].
           ++ destruct (decide _) as [[_ ?]|]; done.
        -- destruct (decide _) as [[_ ?]|]; done.
      * assert (keep_valid results acc f !! k = acc !! k) as ->.
        { unfold keep_valid. destruct (results !! f) as [v|]; [|done].
          destruct (truthy v); [|done]. by rewrite lookup_insert_ne. }
        destruct (decide _) as [[[->|Hin]%elem_of_cons Ht]|]; [done| |done].
        destruct Hn. by split.
Qed.

(** The validated copy holds exactly the required fields whose value is
    non-empty. *)
Lemma validate_results_lookup (results : dict) (k : string) (v : field_value) :
  _validate_results results !! k = Some v ↔
  k ∈ required_fields ∧ results !! k = Some v ∧ truthy v = true.
Proof.
  unfold _validate_results.
  change (foldl _ ∅ required_fields) with (foldl (keep_valid results) ∅ required_fields).
  rewrite validate_fold.
  destruct (decide (k ∈ required_fields ∧ get_truthy results k = true)) as [[Hin Ht]|Hn].
  - apply get_truthy_true in Ht as (v' & Hv' & Ht). rewrite Hv'. split.
    + by intros [= <-].
    + by intros (_ & [= <-] & _).
  - rewrite lookup_empty. split; [done|]. intros (Hin & Hk & Ht).
    destruct Hn. split; [done|]. apply get_truthy_true. by exists v.
Qed.

(** ** The domain is never extracted *)

Section NoDomain.

Variable provider : SearchProvider.
Variable extract : list search_result → Company → outcome dict.
Variable progress_callback : bool.
Variable company : Company.
Variable person : Person.

Hypothesis extract_no_domain : ∀ hits c extracted,
  extract hits c = Return extracted → extracted !! "company_domain" = None.

Lemma loop_merged_no_domain fuel iteration results sr :
  results !! "company_domain" = None →
  Forall (fun rk : dict => rk !! "company_domain" = None)
         (merged (research_loop provider extract progress_callback fuel
                    company person iteration results sr).1).
Proof.
  revert iteration results sr.
  induction fuel as [|fuel IH]; intros iteration results sr Hdom;
    destruct (continues iteration results) eqn:Hg.
  - rewrite research_loop_fuel0 by done. constructor.
  - rewrite research_loop_stop by done. constructor.
  - rewrite research_loop_step by done. cbv zeta.
    destruct (search provider iteration _) as [hits|e]; [|constructor].
    destruct (extract hits company) as [extracted|e] eqn:Hex; [|constructor].
    cbn [fst]. rewrite merged_step.
    assert (dict_update results extracted !! "company_domain" = None) as Hdom'.
    { unfold dict_update. rewrite lookup_union_None. eauto. }
    constructor; [done|]. by apply IH.
  - rewrite research_loop_stop by done. constructor.
Qed.

End NoDomain.

Lemma missing_domain (results : dict) :
  results !! "company_domain" = None →
  "company_domain" ∈ _get_missing_fields results.
Proof.
  intros H. apply missing_iff. split.
  - unfold required_fields. rewrite !elem_of_cons. tauto.
  - unfold get_truthy. by rewrite H.
Qed.

(** ** What a completed run emits and returns *)

Lemma research_person_completed_resolves
    (provider : SearchProvider)
    (extract : list search_result → Company → outcome dict)
    (progress_callback : bool) (fuel : nat) (db : database) (person_id : string)
    (r : dict) :
  (research_person_fuel provider extract progress_callback fuel db person_id).2
    = Some (Return r) →
  ∃ person company,
    people db !! person_id = Some person
    ∧ p_company_id person ≫= (fun cid => companies db !! cid) = Some company.
Proof.
  unfold research_person_fuel.
  destruct (people db !! person_id) as [person|]; [|done].
  destruct (p_company_id person ≫= _) as [company|] eqn:Hc; [|done].
  intros _. exists person, company. by split.
Qed.

(** C3, as amended: a completed run of the agent returns a validated field
    set (recognised keys only, every value non-empty).  With a callback,
    exactly one of the events it has emitted reports completion: the event
    of the third pass of the loop, "3 of 3", which is also the last event.
    The fields it reports as found are the keys of the loop's running result
    after the third merge, and the fields it reports as remaining are the
    required fields missing from that running result, the company's domain
    always among them; the field set returned plays no part in it.  The
    events are the three per-pass "progress" events, numbered 1, 2, 3 of 3;
    without a callback nothing is emitted. *)
Theorem research_person_completion
    (re_search : string → string → outcome (option string))
    (search_provider : option SearchProvider)
    (progress_callback : bool) (db : database) (person_id : string) (r : dict) :
  (DeepResearchAgent re_search search_provider progress_callback db person_id).2
    = Some (Return r) →
  let t := (DeepResearchAgent re_search search_provider progress_callback db person_id).1 in
  validated_field_set r
  ∧ progressed t
    = (if progress_callback
       then imap (fun k rk => _create_progress_update k rk) (merged t) else [])
  ∧ map pu_iteration (progressed t) = (if progress_callback then [1; 2; 3]%nat else [])
  ∧ Forall (fun u => pu_type u = "progress" ∧ pu_total_iterations u = 3%nat) (progressed t)
  ∧ (if progress_callback
     then ∃ u m, filter reports_completion (progressed t) = [u]
                 ∧ last (progressed t) = Some u
                 ∧ last (merged t) = Some m
                 ∧ length (merged t) = 3%nat
                 ∧ pu_iteration u = 3%nat
                 ∧ pu_fields_found u = dom m
                 ∧ pu_fields_remaining u = _get_missing_fields m
                 ∧ "company_domain" ∈ pu_fields_remaining u
     else progressed t = []).
Proof.
  unfold DeepResearchAgent, research_person. intros Hrun. cbv zeta.
  set (provider := default MockSearchProvider search_provider) in *.
  destruct (research_person_completed_resolves _ _ _ _ _ _ _ Hrun)
    as (person & company & Hp & Hc).
  split.
  { assert (resolve db person_id = Some company) as Hres.
    { unfold resolve. by rewrite Hp. }
    destruct (research_person_returns _ _ _ _ _ _ _ _ Hres Hrun) as (tr & _ & ->).
    intros k v Hk. apply validate_results_lookup in Hk. tauto. }
  destruct (research_person_loop_trace provider (_extract_insights re_search)
              progress_callback max_iterations db person_id person company Hp Hc)
    as (_ & Hm & Hpr).
  rewrite Hpr, Hm.
  rewrite (research_person_resolved _ _ _ _ _ _ _ _ Hp Hc) in Hrun.
  pose proof (loop_progressed provider (_extract_insights re_search) progress_callback
                company person max_iterations 0 ∅ None) as Hev.
  pose proof (loop_all_passes provider (_extract_insights re_search) progress_callback
                company person (extract_insights_no_domain re_search)
                max_iterations 0 ∅ None) as Hlen.
  pose proof (loop_merged_no_domain provider (_extract_insights re_search)
                progress_callback company person (extract_insights_no_domain re_search)
                max_iterations 0 ∅ None (lookup_empty _)) as Hnd.
  destruct (research_loop _ _ _ _ _ _ _ _ _) as [t [[[results sr]|e]|]]; [|done..].
  cbn [fst snd] in *.
  specialize (Hlen (results, sr) (lookup_empty _)).
  rewrite Hev. clear Hev Hrun.
  assert (length (merged t) = 3%nat) as Hl.
  { apply Hlen; [unfold max_iterations; lia|done]. }
  destruct (merged t) as [|m0 [|m1 [|m2 [|m3 ms]]]]; try discriminate Hl.
  apply Forall_cons in Hnd as [_ Hnd].
  apply Forall_cons in Hnd as [_ Hnd].
  apply Forall_cons in Hnd as [Hnd _].
  destruct progress_callback; simpl.
  - split; [done|]. split; [done|]. split; [by repeat constructor|].
    exists (_create_progress_update 2 m2), m2.
    split; [rewrite !filter_cons; by simpl|].
    repeat (split; [done|]).
    by apply missing_domain.
  - by repeat split.
Qed.

Lemma research_person_completion_witness :
  (DeepResearchAgent re_never None true sample_db "p1").2 = Some (Return techcorp_results)
  ∧ validated_field_set techcorp_results
  ∧ map pu_iteration (progressed (DeepResearchAgent re_never None true sample_db "p1").1)
    = [1; 2; 3]%nat
  ∧ ∃ u m, filter reports_completion
             (progressed (DeepResearchAgent re_never None true sample_db "p1").1) = [u]
           ∧ last (merged (DeepResearchAgent re_never None true sample_db "p1").1) = Some m
           ∧ pu_fields_found u = dom m
           ∧ "company_domain" ∈ pu_fields_remaining u.
Proof.
  assert ((DeepResearchAgent re_never None true sample_db "p1").2
          = Some (Return techcorp_results)) as H by by_evaluation.
  destruct (research_person_completion re_never None true sample_db "p1"
              techcorp_results H)
    as (Hv & _ & Hi & _ & (u & m & Hu & _ & Hm & _ & _ & Hf & _ & Hd)).
  split; [exact H|]. split; [exact Hv|]. split; [exact Hi|].
  exists u, m. split; [exact Hu|]. split; [exact Hm|]. split; [exact Hf|exact Hd].
Defined.

(** The only event that reports completion in the run for the sample
    company, and what the run returns. *)
Lemma generic_run_terminal_event :
  filter reports_completion
    (progressed (DeepResearchAgent re_never None true sample_db "p1").1)
  = [_create_progress_update 2 generic_extraction]
  ∧ (DeepResearchAgent re_never None true sample_db "p1").2
    = Some (Return techcorp_results).
Proof. split; by_evaluation. Qed.

(** C3, as worded, fails: in a run with a callback for a company that the
    search says nothing about, the one event that reports completion lists
    two fields as found, the value proposition and the pricing model (both
    of them empty, and reported as remaining too), while the field set
    returned holds all five fields. *)
Lemma research_person_last_event_misreports :
  ¬ completes_as_specified (DeepResearchAgent re_never None true sample_db "p1").
Proof.
  intros (fields & u & Hr & _ & Hu & Hf).
  destruct generic_run_terminal_event as [Hlast Hret].
  rewrite Hret in Hr. injection Hr as <-.
  rewrite Hlast in Hu. injection Hu as <-.
  assert ("company_domain" ∈ dom techcorp_results) as Hin.
  { apply elem_of_dom. exists (FStr "techcorp.com"). by_evaluation. }
  rewrite <- Hf in Hin. cbn [pu_fields_found _create_progress_update] in Hin.
  apply elem_of_dom in Hin as [v Hv].
  assert (generic_extraction !! "company_domain" = None) as Hnone by by_evaluation.
  rewrite Hnone in Hv. discriminate Hv.
Qed.

(** A run started without a callback completes without emitting any
    event. *)
Lemma research_person_silent_completion :
  ¬ one_terminal_event (DeepResearchAgent re_never None false sample_db "p2").1.
Proof.
  assert (progressed (DeepResearchAgent re_never None false sample_db "p2").1 = [])
    as Hnone by by_evaluation.
  unfold one_terminal_event. rewrite Hnone. by intros [u Hu].
Qed.

(** With an extractor that fills every field at once, the loop leaves after
    its first pass and the only event heard is "1 of 3". *)
Lemma early_exit_events :
  map (fun u => (pu_iteration u, pu_total_iterations u))
      (progressed (research_person MockSearchProvider complete_extractor true
                     sample_db "p1").1)
  = [(1, 3)]%nat.
Proof. by_evaluation. Qed.

(** ** The merge step *)

Lemma varying_run_merges :
  merged (DeepResearchAgent re_never (Some varying_provider) true sample_db "p1").1
  = [ first_extraction;
      dict_update first_extraction second_extraction;
      dict_update first_extraction second_extraction ].
Proof. by_evaluation. Qed.

(** C1, as worded, fails: merging the second extraction into the result of
    the first pass replaces the pricing model found by the first pass. *)
Lemma merge_replaces_scalar :
  ¬ (write_once first_extraction second_extraction
     ∧ grows_by_union first_extraction second_extraction).
Proof.
  intros [Hw _].
  specialize (Hw "pricing_model" (FStr "Subscription-based pricing model")).
  assert (dict_update first_extraction second_extraction !! "pricing_model"
          = Some (FStr "Freemium pricing model")) as Hnew by by_evaluation.
  rewrite Hnew in Hw.
  assert (Some (FStr "Freemium pricing model")
          = Some (FStr "Subscription-based pricing model")) as Habs.
  { apply Hw.
    - unfold scalar_fields. rewrite !elem_of_cons. tauto.
    - by_evaluation.
    - reflexivity. }
  discriminate Habs.
Qed.

(** The multi-valued fields fare no better: the product found by the first
    pass is gone after the second merge. *)
Lemma merge_replaces_list :
  get_list (dict_update first_extraction second_extraction) "product_names"
  = ["Cloud Solutions"].
Proof. by_evaluation. Qed.

Lemma dict_update_lookup (results extracted : dict) (k : string) :
  dict_update results extracted !! k =
  match extracted !! k with
  | Some v => Some v
  | None => results !! k
  end.
Proof.
  unfold dict_update. rewrite lookup_union.
  destruct (extracted !! k), (results !! k); done.
Qed.

Lemma dict_update_dom (results extracted : dict) :
  dom results ⊆ dom (dict_update results extracted).
Proof.
  unfold dict_update. rewrite dom_union_L. apply union_subseteq_r.
Qed.

Section MergeChain.

Variable provider : SearchProvider.
Variable extract : list search_result → Company → outcome dict.
Variable progress_callback : bool.
Variable company : Company.
Variable person : Person.

(** Each merge of the loop writes what the extractor returned, for the hits
    of that pass's search, into the dictionary left by the merge before it
    (into the initial dictionary, for the first pass). *)
Lemma loop_merged_from_extraction fuel iteration results sr k rk :
  (results :: merged (research_loop provider extract progress_callback fuel
                        company person iteration results sr).1) !! S k = Some rk →
  ∃ prev hits extracted,
    (results :: merged (research_loop provider extract progress_callback fuel
                          company person iteration results sr).1) !! k = Some prev
    ∧ search provider (iteration + k)
        (_generate_search_query company person prev (iteration + k)) = Return hits
    ∧ extract hits company = Return extracted
    ∧ rk = dict_update prev extracted.
Proof.
  revert iteration results sr k.
  induction fuel as [|fuel IH]; intros iteration results sr k;
    destruct (continues iteration results) eqn:Hg.
  - by rewrite research_loop_fuel0.
  - by rewrite research_loop_stop.
  - rewrite research_loop_step by done. cbv zeta.
    destruct (search provider iteration _) as [hits|e] eqn:Hs; [|done].
    destruct (extract hits company) as [extracted|e] eqn:Hex; [|done].
    cbn [fst]. rewrite merged_step.
    destruct k as [|k].
    + simpl. intros [= <-]. exists results, hits, extracted.
      rewrite Nat.add_0_r. by repeat split.
    + intros Hk.
      apply (IH (iteration + 1)%nat _ (Some hits) k) in Hk
        as (prev & hits' & extracted' & Hprev & Hs' & Hex' & ->).
      exists prev, hits', extracted'.
      replace (iteration + S k)%nat with (iteration + 1 + k)%nat by lia.
      by repeat split.
  - by rewrite research_loop_stop.
Qed.

End MergeChain.

(** C1, as amended: the merge step is a plain dictionary update with the
    extraction of the pass.  In any run, the dictionary left by the merge of
    pass [k] is the one left by the merge before it (the empty dictionary,
    for the first pass) updated with what the extractor returned for the hits
    of the search of pass [k]: a key present in that extraction takes the
    extracted value, whatever the running result held for it; a key absent
    from the extraction keeps its value; so the keys of the running result
    only grow. *)
Theorem merge_is_update
    (provider : SearchProvider)
    (extract : list search_result → Company → outcome dict)
    (progress_callback : bool) (fuel : nat) (db : database) (person_id : string)
    (k : nat) (rk : dict) :
  (∅ :: merged (research_person_fuel provider extract progress_callback
                  fuel db person_id).1) !! S k = Some rk →
  ∃ person company prev hits extracted,
    people db !! person_id = Some person
    ∧ resolve db person_id = Some company
    ∧ (∅ :: merged (research_person_fuel provider extract progress_callback
                      fuel db person_id).1) !! k = Some prev
    ∧ search provider k (_generate_search_query company person prev k) = Return hits
    ∧ extract hits company = Return extracted
    ∧ (∀ key, rk !! key = match extracted !! key with
                          | Some v => Some v
                          | None => prev !! key
                          end)
    ∧ dom prev ⊆ dom rk.
Proof.
  destruct (resolve db person_id) as [company|] eqn:Hres.
  - pose proof Hres as Hres'. unfold resolve in Hres.
    destruct (people db !! person_id) as [person|] eqn:Hp; [|done]. simpl in Hres.
    destruct (research_person_loop_trace provider extract progress_callback
                fuel db person_id person company Hp Hres) as (_ & Hm & _).
    rewrite Hm. intros Hk.
    apply loop_merged_from_extraction in Hk
      as (prev & hits & extracted & Hprev & Hs & Hex & ->).
    exists person, company, prev, hits, extracted.
    split; [done|]. split; [done|]. split; [done|]. split; [exact Hs|].
    split; [exact Hex|]. split; [|apply dict_update_dom].
    intros key. apply dict_update_lookup.
  - destruct (research_person_unresolved provider extract progress_callback
                fuel db person_id Hres) as [msg ->].
    done.
Qed.

Lemma merge_is_update_witness :
  (∅ :: merged (research_person_fuel varying_provider (_extract_insights re_never)
                  true 3 sample_db "p1").1) !! 2%nat
    = Some (dict_update first_extraction second_extraction)
  ∧ ∃ prev hits extracted,
      (∅ :: merged (research_person_fuel varying_provider (_extract_insights re_never)
                      true 3 sample_db "p1").1) !! 1%nat = Some prev
      ∧ search varying_provider 1
          (_generate_search_query acme (mkPerson "p1" (Some "c1")) prev 1) = Return hits
      ∧ _extract_insights re_never hits acme = Return extracted
      ∧ dict_update first_extraction second_extraction !! "pricing_model"
        = match extracted !! "pricing_model" with
          | Some v => Some v
          | None => prev !! "pricing_model"
          end.
Proof.
  assert ((∅ :: merged (research_person_fuel varying_provider
                          (_extract_insights re_never) true 3 sample_db "p1").1) !! 2%nat
          = Some (dict_update first_extraction second_extraction)) as H by by_evaluation.
  split; [exact H|].
  destruct (merge_is_update varying_provider (_extract_insights re_never) true 3
              sample_db "p1" 1 (dict_update first_extraction second_extraction) H)
    as (person & company & prev & hits & extracted & Hp & Hc & Hprev & Hs & Hex & Hk & _).
  assert (people sample_db !! "p1" = Some (mkPerson "p1" (Some "c1"))) as Hp'
    by by_evaluation.
  assert (resolve sample_db "p1" = Some acme) as Hc' by by_evaluation.
  rewrite Hp' in Hp. rewrite Hc' in Hc.
  injection Hp as <-. injection Hc as <-.
  exists prev, hits, extracted.
  split; [exact Hprev|]. split; [exact Hs|]. split; [exact Hex|]. apply Hk.
Defined.

(** * Properties of the session service *)

(** ** Operations on an unknown session *)

(** C10: on a session id that is not in the registry, the lookup answers
    [None] and update, complete, error and cleanup leave the service exactly
    as it was (registry, rooms and messages sent); cleaning a session up a
    second time changes nothing either. *)
Theorem unknown_session_noop (st st0 : service) (session_id : string)
    (patch : snapshot) (results : json) (message now : string) :
  progress_data st !! session_id = None →
  get_session_progress session_id st = None
  ∧ update_progress session_id patch st = st
  ∧ complete_research session_id results now st = st
  ∧ error_research session_id message now st = st
  ∧ cleanup_session session_id st = st
  ∧ cleanup_session session_id (cleanup_session session_id st0)
    = cleanup_session session_id st0.
Proof.
  intros Hnone.
  unfold get_session_progress, update_progress, complete_research, error_research.
  rewrite Hnone. repeat split.
  - unfold cleanup_session. by rewrite Hnone.
  - unfold cleanup_session.
    destruct (progress_data st0 !! session_id) as [snap|] eqn:Hs.
    + cbn [progress_data set_progress_data]. by rewrite lookup_delete_eq.
    + by rewrite Hs.
Qed.

Lemma unknown_session_noop_witness :
  progress_data empty_service !! "s1" = None
  ∧ get_session_progress "s1" empty_service = None
  ∧ error_research "s1" "boom" "2025-07-28T12:00:05" empty_service = empty_service
  ∧ cleanup_session "s1" (cleanup_session "s1" started) = cleanup_session "s1" started.
Proof.
  assert (progress_data empty_service !! "s1" = None) as Hnone by reflexivity.
  destruct (unknown_session_noop empty_service started "s1" ∅ JNull "boom"
              "2025-07-28T12:00:05" Hnone) as (Hget & _ & _ & Herr & _ & Htwice).
  split; [exact Hnone|]. split; [exact Hget|]. split; [exact Herr|exact Htwice].
Defined.

(** ** Marking a session as failed *)

Lemma error_patch_lookup (now message k : string) :
  k ∉ error_patch_keys → error_patch now message !! k = None.
Proof.
  unfold error_patch_keys, error_patch. intros Hk.
  apply not_elem_of_list_to_map. simpl. exact Hk.
Qed.

(** C9: marking a registered session as failed sets its status to "error"
    and records the message and the time; the results gathered so far and
    every other entry of the snapshot outside the error patch are unchanged;
    the snapshot stays in the registry, where the lookup finds it, and no
    other session is touched. *)
Theorem error_research_frame (st : service) (session_id message now : string)
    (snap : snapshot) :
  progress_data st !! session_id = Some snap →
  ∃ snap',
    get_session_progress session_id (error_research session_id message now st)
      = Some snap'
    ∧ snap' !! "status" = Some (JStr "error")
    ∧ snap' !! "error_message" = Some (JStr message)
    ∧ snap' !! "error_time" = Some (JStr now)
    ∧ snap' !! "results" = snap !! "results"
    ∧ (∀ k, k ∉ error_patch_keys → snap' !! k = snap !! k)
    ∧ (∀ other, other ≠ session_id →
         progress_data (error_research session_id message now st) !! other
         = progress_data st !! other).
Proof.
  intros Hsnap. exists (apply_patch (error_patch now message) snap).
  unfold get_session_progress, error_research. rewrite Hsnap.
  cbn [progress_data emit set_progress_data].
  assert (∀ k, k ∉ error_patch_keys →
            apply_patch (error_patch now message) snap !! k = snap !! k) as Hframe.
  { intros k Hk. unfold apply_patch. rewrite lookup_union_r; [done|].
    by apply error_patch_lookup. }
  split; [by rewrite lookup_insert_eq|].
  split; [unfold apply_patch; by erewrite lookup_union_Some_l|].
  split; [unfold apply_patch; by erewrite lookup_union_Some_l|].
  split; [unfold apply_patch; by erewrite lookup_union_Some_l|].
  split.
  { apply Hframe. unfold error_patch_keys. rewrite !elem_of_cons, elem_of_nil.
    intros [?|[?|[?|[?|[]]]]]; discriminate. }
  split; [exact Hframe|].
  intros other Hne. by rewrite lookup_insert_ne.
Qed.

Lemma error_research_frame_witness :
  progress_data in_flight !! "s1" = Some partial_snapshot
  ∧ ∃ snap',
      get_session_progress "s1" (error_research "s1" "boom" "2025-07-28T12:00:09" in_flight)
        = Some snap'
      ∧ snap' !! "status" = Some (JStr "error")
      ∧ snap' !! "results" = Some (JList [company_info_entry]).
Proof.
  assert (progress_data in_flight !! "s1" = Some partial_snapshot) as Hsnap
    by by_evaluation.
  assert (partial_snapshot !! "results" = Some (JList [company_info_entry])) as Hres
    by by_evaluation.
  split; [exact Hsnap|].
  destruct (error_research_frame in_flight "s1" "boom" "2025-07-28T12:00:09"
              partial_snapshot Hsnap) as (snap' & Hget & Hstatus & _ & _ & Hkeep & _).
  exists snap'. split; [exact Hget|]. split; [exact Hstatus|].
  exact (eq_trans Hkeep Hres).
Defined.

(** ** Joining a session *)

Lemma sent_by_app (op : service → service) (st : service) (evs : list emission) :
  outbox (op st) = outbox st ++ evs → sent_by op st = evs.
Proof. unfold sent_by. intros ->. by rewrite drop_app_length. Qed.






(** ** The events of a simulated run *)

Lemma in_progress_patch_steps (i : nat) (step now : string) :
  in_progress_patch i step now !! "steps_completed" = Some (JInt (Z.of_nat i)).
Proof.
  unfold in_progress_patch. rewrite !list_to_map_cons. simpl.
  rewrite !lookup_insert_ne by done. by rewrite lookup_insert_eq.
Qed.

Lemma in_progress_patch_results (i : nat) (step now : string) :
  in_progress_patch i step now !! "results" = None.
Proof.
  unfold in_progress_patch. apply not_elem_of_list_to_map. simpl.
  rewrite !elem_of_cons, elem_of_nil. intros [?|[?|[?|[?|[?|[]]]]]]; discriminate.
Qed.

Lemma registered_insert (reg : registry) (session_id : string) (snap : snapshot)
    (l : list json) :
  snap !! "results" = Some (JList l) → registered (<[session_id := snap]> reg) session_id.
Proof. intros H. exists snap, l. by rewrite lookup_insert_eq. Qed.

Lemma append_result_registered (reg : registry) (session_id : string) (entry : json) :
  registered reg session_id →
  ∃ reg', append_result session_id entry reg = Return reg' ∧ registered reg' session_id.
Proof.
  intros (snap & l & Hsnap & Hres). unfold append_result. rewrite Hsnap, Hres.
  eexists. split; [done|]. eapply registered_insert. by rewrite lookup_insert_eq.
Qed.

Lemma progress_events_not_terminal (evs : list emission) (n : nat) :
  map event evs = replicate n "progress_update" → filter terminal_event evs = [].
Proof.
  revert n. induction evs as [|e evs IH]; intros n; [done|].
  destruct n as [|n]; [done|]. simpl. intros [= He Hevs].
  rewrite filter_cons. destruct (decide (terminal_event e)) as [[Ht|Ht]|_].
  - rewrite He in Ht. discriminate.
  - rewrite He in Ht. discriminate.
  - by eapply IH.
Qed.

Lemma progress_events_steps (evs : list emission) (n : nat) :
  map event evs = replicate n "progress_update" →
  progress_steps evs = omap (fun e => payload e !! "steps_completed") evs.
Proof.
  revert n. induction evs as [|e evs IH]; intros n; [done|].
  destruct n as [|n]; [done|]. simpl. intros [= He Hevs].
  unfold progress_steps in *. simpl. rewrite decide_True by done.
  by rewrite (IH n).
Qed.

Section SimulatedRun.

Variable session_id : string.
Variable clock : nat → string.
Variable env : nat → registry → registry.

(** Whatever happens while the run sleeps leaves the session registered. *)
Hypothesis env_keeps : ∀ i reg, registered reg session_id → registered (env i reg) session_id.

Lemma simulate_loop_run (i : nat) (todo : list (string * nat)) (st : service) :
  registered (progress_data st) session_id →
  ∃ evs st',
    simulate_loop session_id clock env i todo st = (st', Return ())
    ∧ outbox st' = outbox st ++ evs
    ∧ registered (progress_data st') session_id
    ∧ map event evs = replicate (length todo) "progress_update"
    ∧ omap (fun e => payload e !! "steps_completed") evs = step_numbers i (length todo)
    ∧ Forall (fun e => recipient e = ToRoom session_id) evs.
Proof.
  revert i st. induction todo as [|step_info todo IH]; intros i st Hreg.
  - exists [], st. simpl. rewrite app_nil_r. by repeat split.
  - destruct Hreg as (snap & l & Hsnap & Hres).
    cbn [simulate_loop]. rewrite Hsnap.
    set (snap' := apply_patch (in_progress_patch i step_info.1 (clock i)) snap).
    set (sent := mkEmission (ToRoom session_id) "progress_update" snap').
    cbn [progress_data emit set_progress_data outbox active_sessions rooms].
    assert (registered (env i (<[session_id := snap']> (progress_data st))) session_id)
      as Hreg'.
    { apply env_keeps. apply (registered_insert _ _ _ l).
      unfold snap', apply_patch. rewrite lookup_union_r; [done|].
      apply in_progress_patch_results. }
    set (reg1 := env i (<[session_id := snap']> (progress_data st))) in *.
    assert (∃ reg2,
      (if decide (i = 1%nat) then append_result session_id company_info_entry reg1
       else if decide (i = 3%nat) then append_result session_id competitive_intel_entry reg1
       else Return reg1) = Return reg2 ∧ registered reg2 session_id)
      as (reg2 & -> & Hreg2).
    { repeat case_decide; eauto using append_result_registered. }
    destruct (IH (S i)
                (set_progress_data
                   (mkService (active_sessions st) reg1 (rooms st) (outbox st ++ [sent]))
                   reg2) Hreg2)
      as (evs & st' & Hrun & Hout & Hreg3 & Hev & Hsteps & Hto).
    exists (sent :: evs), st'. split; [exact Hrun|].
    split.
    { rewrite Hout. cbn [outbox set_progress_data]. by rewrite <- app_assoc. }
    split; [exact Hreg3|].
    split; [simpl; by rewrite Hev|].
    split.
    { assert (payload sent !! "steps_completed" = Some (JInt (Z.of_nat i))) as Hs.
      { unfold sent, snap', apply_patch. cbn [payload].
        by erewrite lookup_union_Some_l by apply in_progress_patch_steps. }
      change (omap ?f (sent :: evs))
        with (match f sent with Some y => y :: omap f evs | None => omap f evs end).
      cbv beta. rewrite Hs, Hsteps. done. }
    by constructor.
Qed.

End SimulatedRun.

(** C8, as amended: provided the session stays registered (with a list of
    results) through whatever happens while the run sleeps, the run ends
    without an exception and sends, to the session's room and in this order,
    the five "progress_update" events of steps 0, 1, 2, 3, 4 and then one
    "research_completed" event, its only terminal event and its last
    message.  A run never sends "research_error". *)
Theorem simulated_run_sequence (session_id : string) (clock : nat → string)
    (env : nat → registry → registry) (st : service) :
  registered (progress_data st) session_id →
  (∀ i reg, registered reg session_id → registered (env i reg) session_id) →
  (_simulate_research_process session_id clock env st).2 = Return ()
  ∧ map event (run_events session_id clock env st)
    = replicate 5 "progress_update" ++ ["research_completed"]
  ∧ progress_steps (run_events session_id clock env st) = step_numbers 0 5
  ∧ step_ordered (run_events session_id clock env st)
  ∧ well_terminated (run_events session_id clock env st)
  ∧ Forall (fun e => recipient e = ToRoom session_id)
           (run_events session_id clock env st).
Proof.
  intros Hreg Henv.
  destruct (simulate_loop_run session_id clock env Henv 0 steps st Hreg)
    as (evs & st' & Hrun & Hout & (snap' & l' & Hsnap' & _) & Hev & Hsteps & Hto).
  destruct Hreg as (snap & l & Hsnap & _).
  set (done_event := mkEmission (ToRoom session_id) "research_completed"
                       (apply_patch (finished_patch (clock (length steps))) snap')).
  assert (∃ st'', _simulate_research_process session_id clock env st = (st'', Return ())
                  ∧ outbox st'' = outbox st' ++ [done_event]) as (st'' & Hsim & Hout').
  { unfold _simulate_research_process. rewrite Hsnap, Hrun, Hsnap'.
    eexists. split; reflexivity. }
  assert (done_event = mkEmission (ToRoom session_id) "research_completed"
                         (payload done_event)) as Hdone by reflexivity.
  assert (run_events session_id clock env st = evs ++ [done_event]) as Hevents.
  { unfold run_events. apply sent_by_app. rewrite Hsim. cbn [fst].
    by rewrite Hout', Hout, <- app_assoc. }
  rewrite Hevents, Hsim. change (length steps) with 5%nat in *.
  assert (progress_steps (evs ++ [done_event]) = step_numbers 0 5) as Hps.
  { unfold progress_steps. rewrite omap_app. fold (progress_steps evs).
    rewrite (progress_events_steps evs 5 Hev), Hsteps, Hdone. simpl.
    by rewrite ?app_nil_r. }
  split; [done|]. split.
  { rewrite map_app, Hev, Hdone. done. }
  split; [exact Hps|]. split; [by exists 5%nat|]. split.
  - split.
    + exists done_event. split; [by rewrite last_snoc|]. left. by rewrite Hdone.
    + rewrite filter_app, (progress_events_not_terminal evs 5 Hev).
      rewrite filter_cons, decide_True; [done|]. left. by rewrite Hdone.
  - apply Forall_app. split; [exact Hto|]. constructor; [|constructor].
    by rewrite Hdone.
Qed.

Lemma started_registered : registered (progress_data started) "s1".
Proof.
  eexists _, []. split; [reflexivity|]. by_evaluation.
Qed.

Lemma simulated_run_sequence_witness :
  registered (progress_data started) "s1"
  ∧ (∀ i reg, registered reg "s1" → registered (undisturbed i reg) "s1")
  ∧ map event (run_events "s1" steady_clock undisturbed started)
    = replicate 5 "progress_update" ++ ["research_completed"]
  ∧ well_terminated (run_events "s1" steady_clock undisturbed started).
Proof.
  assert (∀ i reg, registered reg "s1" → registered (undisturbed i reg) "s1") as Henv.
  { intros i reg H. exact H. }
  destruct (simulated_run_sequence "s1" steady_clock undisturbed started
              started_registered Henv) as (_ & Hev & _ & _ & Hterm & _).
  split; [exact started_registered|]. split; [exact Henv|].
  split; [exact Hev|exact Hterm].
Defined.

(** C8, as worded, fails: when the session is cleaned up while the run
    sleeps, the run stops after the progress event of step 2 and no terminal
    event follows. *)
Lemma cleaned_up_run_has_no_terminal_event :
  ¬ (step_ordered (run_events "s1" steady_clock cleaned_at_step_2 started)
     ∧ well_terminated (run_events "s1" steady_clock cleaned_at_step_2 started)).
Proof.
  intros [_ [(e & Hlast & Hterm) _]].
  assert (event <$> last (run_events "s1" steady_clock cleaned_at_step_2 started)
          = Some "progress_update") as Hname by by_evaluation.
  rewrite Hlast in Hname. simpl in Hname. injection Hname as Hname.
  destruct Hterm as [Ht|Ht]; rewrite Hname in Ht; discriminate.
Qed.

Lemma cleaned_up_run_events :
  map event (run_events "s1" steady_clock cleaned_at_step_2 started)
  = ["progress_update"; "progress_update"; "progress_update"]
  ∧ (_simulate_research_process "s1" steady_clock cleaned_at_step_2 started).2
    = Return ().
Proof. split; by_evaluation. Qed.

(** * Further properties of the research agent *)

(** ** Field checks and validation *)

Lemma forallb_filter_nil {A} (f : A → bool) (l : list A) :
  forallb f l = true ↔ filter (fun x => f x = false) l = [].
Proof.
  induction l as [|x l IH]; [done|]. cbn [forallb]. rewrite filter_cons.
  destruct (decide (f x = false)) as [Hx|Hx].
  - rewrite Hx. split; discriminate.
  - apply not_false_is_true in Hx. rewrite Hx. exact IH.
Qed.

(** X1: the loop guard and the planner agree on what is missing: every
    required field counts as found exactly when no field is listed as
    missing, and the listed fields are required fields that the result lacks
    or holds an empty value for. *)
Theorem all_found_iff_none_missing (results : dict) :
  (_all_fields_found results = true ↔ _get_missing_fields results = [])
  ∧ (∀ field, field ∈ _get_missing_fields results ↔
       field ∈ required_fields
       ∧ (results !! field = None ∨ ∃ v, results !! field = Some v ∧ truthy v = false)).
Proof.
  split.
  - unfold _all_fields_found, _get_missing_fields. apply forallb_filter_nil.
  - intros field. rewrite missing_iff, get_truthy_false. tauto.
Qed.

Lemma filter_ext_elem {A} (P Q : A → Prop) `{!∀ x, Decision (P x)}
    `{!∀ x, Decision (Q x)} (l : list A) :
  (∀ x, x ∈ l → (P x ↔ Q x)) → filter P l = filter Q l.
Proof.
  induction l as [|x l IH]; intros Hext; [done|]. rewrite !filter_cons.
  rewrite IH by (intros y Hy; apply Hext; by right).
  destruct (decide (P x)) as [HP|HP], (decide (Q x)) as [HQ|HQ]; try done.
  - destruct HQ. apply Hext; [by left|done].
  - destruct HP. apply Hext; [by left|done].
Qed.

Lemma validate_results_subseteq (results : dict) : _validate_results results ⊆ results.
Proof.
  apply map_subseteq_spec. intros k v Hk.
  apply validate_results_lookup in Hk. tauto.
Qed.

Lemma get_truthy_validate (results : dict) (field : string) :
  field ∈ required_fields →
  get_truthy (_validate_results results) field = get_truthy results field.
Proof.
  intros Hin. destruct (get_truthy results field) eqn:Ht.
  - apply get_truthy_true in Ht as (v & Hv & Ht). apply get_truthy_true.
    exists v. split; [|done]. by apply validate_results_lookup.
  - apply get_truthy_false. apply get_truthy_false in Ht.
    destruct (_validate_results results !! field) as [v|] eqn:Hv; [|by left].
    apply validate_results_lookup in Hv as (_ & Hv & Htv).
    destruct Ht as [Ht|(v' & Hv' & Ht)]; congruence.
Qed.

(** X2: validation only ever drops entries: the validated copy is a
    sub-dictionary of its input, validating twice is validating once, and
    validation changes neither the list of missing fields nor the outcome of
    the all-fields check. *)
Theorem validate_results_stable (results : dict) :
  _validate_results results ⊆ results
  ∧ _validate_results (_validate_results results) = _validate_results results
  ∧ _get_missing_fields (_validate_results results) = _get_missing_fields results
  ∧ _all_fields_found (_validate_results results) = _all_fields_found results.
Proof.
  assert (_get_missing_fields (_validate_results results)
          = _get_missing_fields results) as Hmissing.
  { unfold _get_missing_fields. apply filter_ext_elem.
    intros field Hin. by rewrite get_truthy_validate. }
  split; [apply validate_results_subseteq|]. split; [|split; [exact Hmissing|]].
  - apply map_eq. intros k. apply option_eq. intros v.
    rewrite !validate_results_lookup. tauto.
  - apply Bool.eq_iff_eq_true. unfold _all_fields_found.
    rewrite !forallb_filter_nil. fold (_get_missing_fields (_validate_results results)).
    fold (_get_missing_fields results). by rewrite Hmissing.
Qed.

(** X3: in a progress update every required field is reported as found or
    as remaining, and the fields reported as both are exactly the required
    fields whose key is present with an empty value. *)
Theorem progress_update_fields (iteration : nat) (results : dict) (field : string) :
  let u := _create_progress_update iteration results in
  (field ∈ required_fields →
     field ∈ pu_fields_found u ∨ field ∈ pu_fields_remaining u)
  ∧ (field ∈ pu_fields_found u ∧ field ∈ pu_fields_remaining u ↔
       field ∈ required_fields ∧ ∃ v, results !! field = Some v ∧ truthy v = false).
Proof.
  cbv zeta. unfold _create_progress_update. cbn [pu_fields_found pu_fields_remaining].
  rewrite elem_of_dom, missing_iff, get_truthy_false. split.
  - intros Hin. destruct (results !! field) as [v|] eqn:Hv; [left; by eexists|].
    right. split; [done|by left].
  - split.
    + intros ([v Hv] & Hin & [Hnone|Hfalsy]); [congruence|]. by split.
    + intros (Hin & v & Hv & Ht). split; [by eexists|]. split; [done|].
      right. by exists v.
Qed.

(** ** Extraction helpers *)

Lemma extract_competitors_fold (text : string) (company_name : option string) :
  _extract_competitors text company_name
  = foldl (competitor_step text company_name) (Return []) common_competitors.
Proof. reflexivity. Qed.

Lemma competitor_fold_raise text company_name e cs :
  foldl (competitor_step text company_name) (Raise e) cs = Raise e.
Proof. induction cs as [|c cs IH]; [done|]. exact IH. Qed.

Lemma competitor_fold_named text name acc cs :
  foldl (competitor_step text (Some name)) (Return acc) cs
  = Return (acc ++ filter (fun c => mentioned text c = true ∧ lower c ≠ lower name) cs).
Proof.
  revert acc. induction cs as [|c cs IH]; intros acc.
  - by rewrite app_nil_r.
  - cbn [foldl]. rewrite filter_cons. unfold competitor_step at 2. simpl.
    destruct (decide (mentioned text c = true ∧ lower c ≠ lower name)) as [[Hm Hne]|Hn].
    + unfold mentioned in Hm. rewrite Hm, decide_True by done.
      rewrite IH. by rewrite <- app_assoc.
    + destruct (contains (lower c) (lower text)) eqn:Hc; [|apply IH].
      destruct (decide (lower c ≠ lower name)) as [Hne|He]; [|apply IH].
      destruct Hn. by split.
Qed.

Lemma competitor_fold_unnamed text acc cs :
  foldl (competitor_step text None) (Return acc) cs
  = if existsb (mentioned text) cs
    then Raise (AttributeError "'NoneType' object has no attribute 'lower'")
    else Return acc.
Proof.
  induction cs as [|c cs IH]; [done|].
  cbn [foldl existsb]. unfold competitor_step at 2. simpl.
  change (contains (lower c) (lower text)) with (mentioned text c).
  destruct (mentioned text c); simpl.
  - apply competitor_fold_raise.
  - exact IH.
Qed.

(** X4: for a company with a name, [_extract_competitors] never raises and
    returns, in the order of the fixed list and without repetition, exactly
    the well-known competitors the text mentions, whatever the case, other
    than the company itself.  For a company without a name it returns the
    empty list when the text mentions no competitor, and raises
    [AttributeError] as soon as it mentions one. *)
Theorem extract_competitors_spec (text : string) :
  (∀ name,
     ∃ l, _extract_competitors text (Some name) = Return l
          ∧ l = filter (fun c => mentioned text c = true ∧ lower c ≠ lower name)
                       common_competitors
          ∧ NoDup l
          ∧ (∀ c, c ∈ l → lower c ≠ lower name))
  ∧ (existsb (mentioned text) common_competitors = false →
       _extract_competitors text None = Return [])
  ∧ (existsb (mentioned text) common_competitors = true →
       ∃ msg, _extract_competitors text None = Raise (AttributeError msg)).
Proof.
  split; [|split].
  - intros name. eexists. split; [|split; [reflexivity|split]].
    + rewrite extract_competitors_fold. apply competitor_fold_named.
    + apply NoDup_filter. unfold common_competitors.
      repeat (apply NoDup_cons; split;
              [rewrite ?elem_of_cons, elem_of_nil; intros H;
               repeat destruct H as [H|H]; done|]).
      apply NoDup_nil_2.
    + intros c [[_ Hne] _]%list_elem_of_filter. exact Hne.
  - intros Hno. rewrite extract_competitors_fold, competitor_fold_unnamed. by rewrite Hno.
  - intros Hsome. rewrite extract_competitors_fold, competitor_fold_unnamed, Hsome.
    by eexists.
Qed.

(** ** The extractor *)

Section Extraction.

Variable re_search : string → string → outcome (option string).
Variable company : Company.

(** One pass of the loop, when it returns, is four dictionary updates. *)
Lemma insights_step_inv insights result insights' :
  insights_step re_search company insights result = Return insights' →
  ∃ base competitors,
    (get_truthy insights "company_value_prop" = true ∧ base = insights
     ∨ get_truthy insights "company_value_prop" = false
       ∧ ∃ vp, _extract_value_prop re_search (hit_text result) (c_name company) = Return vp
               ∧ base = <["company_value_prop" := of_option vp]> insights)
    ∧ _extract_competitors (hit_text result) (c_name company) = Return competitors
    ∧ insights' =
        with_competitors competitors
          (with_pricing (hit_text result)
             (with_products (_extract_products (hit_text result) (c_name company)) base)).
Proof.
  unfold insights_step. fold (hit_text result).
  destruct (get_truthy insights "company_value_prop") eqn:Hvp.
  - simpl. destruct (_extract_competitors _ _) as [competitors|e] eqn:Hc; [|done].
    simpl. intros [= <-]. exists insights, competitors. split; [by left|]. by split.
  - simpl. destruct (_extract_value_prop _ _ _) as [vp|e] eqn:Hv; [|done]. simpl.
    destruct (_extract_competitors _ _) as [competitors|e] eqn:Hc; [|done].
    simpl. intros [= <-].
    exists (<["company_value_prop" := of_option vp]> insights), competitors.
    split; [right; split; [done|by exists vp]|]. by split.
Qed.

Lemma with_products_other products insights k :
  k ≠ "product_names" → with_products products insights !! k = insights !! k.
Proof.
  intros Hk. unfold with_products. destruct products; [done|].
  by rewrite lookup_insert_ne.
Qed.

Lemma with_competitors_other competitors insights k :
  k ≠ "key_competitors" → with_competitors competitors insights !! k = insights !! k.
Proof.
  intros Hk. unfold with_competitors. destruct competitors; [done|].
  by rewrite lookup_insert_ne.
Qed.

Lemma with_pricing_other text insights k :
  k ≠ "pricing_model" → with_pricing text insights !! k = insights !! k.
Proof.
  intros Hk. unfold with_pricing. destruct (get_truthy _ _); [done|].
  by rewrite lookup_insert_ne.
Qed.

Lemma with_pricing_present text insights :
  is_Some (with_pricing text insights !! "pricing_model").
Proof.
  unfold with_pricing. destruct (get_truthy insights "pricing_model") eqn:Ht.
  - apply get_truthy_true in Ht as (v & Hv & _). by exists v.
  - rewrite lookup_insert_eq. by eexists.
Qed.

Lemma with_pricing_kept text insights :
  get_truthy insights "pricing_model" = true → with_pricing text insights = insights.
Proof. unfold with_pricing. by intros ->. Qed.

Lemma get_list_other (insights : dict) k k' v :
  k ≠ k' → get_list (<[k := v]> insights) k' = get_list insights k'.
Proof. intros Hk. unfold get_list. by rewrite lookup_insert_ne. Qed.

Lemma with_products_list products insights p :
  p ∈ get_list (with_products products insights) "product_names" ↔
  p ∈ get_list insights "product_names" ∨ p ∈ products.
Proof.
  unfold with_products. destruct products as [|q products].
  - rewrite elem_of_nil. tauto.
  - unfold get_list at 1. rewrite lookup_insert_eq.
    unfold list_set. by rewrite elem_of_remove_dups, elem_of_app.
Qed.

Lemma with_products_nodup products insights :
  NoDup (get_list insights "product_names") →
  NoDup (get_list (with_products products insights) "product_names").
Proof.
  unfold with_products. destruct products as [|q products]; [done|]. intros _.
  unfold get_list at 1. rewrite lookup_insert_eq. apply NoDup_remove_dups.
Qed.

Lemma get_list_with_competitors competitors insights k :
  k ≠ "key_competitors" →
  get_list (with_competitors competitors insights) k = get_list insights k.
Proof. intros Hk. unfold get_list. by rewrite with_competitors_other. Qed.

Lemma get_list_with_pricing text insights k :
  k ≠ "pricing_model" → get_list (with_pricing text insights) k = get_list insights k.
Proof. intros Hk. unfold get_list. by rewrite with_pricing_other. Qed.

(** The product list after one pass is the one before it together with the
    products of the hit. *)
Lemma insights_step_products insights result insights' p :
  insights_step re_search company insights result = Return insights' →
  (p ∈ get_list insights' "product_names" ↔
   p ∈ get_list insights "product_names"
   ∨ p ∈ _extract_products (hit_text result) (c_name company))
  ∧ (NoDup (get_list insights "product_names") →
     NoDup (get_list insights' "product_names")).
Proof.
  intros (base & competitors & Hbase & _ & ->)%insights_step_inv.
  assert (get_list base "product_names" = get_list insights "product_names") as Hb.
  { destruct Hbase as [[_ ->]|(_ & vp & _ & ->)]; [done|]. by apply get_list_other. }
  rewrite get_list_with_competitors, get_list_with_pricing by done.
  rewrite with_products_list, Hb. split; [done|].
  intros Hnd. apply with_products_nodup. by rewrite Hb.
Qed.

(** A scalar that holds a non-empty value survives the pass; after the pass
    both scalars are present. *)
Lemma insights_step_scalars insights result insights' :
  insights_step re_search company insights result = Return insights' →
  is_Some (insights' !! "company_value_prop")
  ∧ is_Some (insights' !! "pricing_model")
  ∧ (get_truthy insights "company_value_prop" = true →
     insights' !! "company_value_prop" = insights !! "company_value_prop")
  ∧ (get_truthy insights "pricing_model" = true →
     insights' !! "pricing_model" = insights !! "pricing_model").
Proof.
  intros (base & competitors & Hbase & _ & ->)%insights_step_inv.
  rewrite !with_competitors_other by done.
  rewrite (with_pricing_other _ _ "company_value_prop"),
          (with_products_other _ _ "company_value_prop") by done.
  split; [|split; [apply with_pricing_present|split]].
  - destruct Hbase as [[Ht ->]|(_ & vp & _ & ->)].
    + apply get_truthy_true in Ht as (v & Hv & _). by exists v.
    + rewrite lookup_insert_eq. by eexists.
  - intros Ht. destruct Hbase as [[_ ->]|(Hf & _)]; [done|congruence].
  - intros Ht.
    assert (base !! "pricing_model" = insights !! "pricing_model") as Hb.
    { destruct Hbase as [[_ ->]|(_ & vp & _ & ->)]; [done|]. by rewrite lookup_insert_ne. }
    rewrite with_pricing_kept.
    + by rewrite with_products_other.
    + unfold get_truthy in *. by rewrite with_products_other, Hb.
Qed.

End Extraction.

Section ExtractionRuns.

Variable re_search : string → string → outcome (option string).
Variable company : Company.

Lemma fold_insights_raise e hits :
  fold_insights re_search company (Raise e) hits = Raise e.
Proof. induction hits as [|h hits IH]; [done|]. exact IH. Qed.

Lemma fold_insights_app acc hits1 hits2 :
  fold_insights re_search company acc (hits1 ++ hits2)
  = fold_insights re_search company (fold_insights re_search company acc hits1) hits2.
Proof. unfold fold_insights. apply foldl_app. Qed.

Lemma fold_insights_snoc_inv init hits h final :
  fold_insights re_search company (Return init) (hits ++ [h]) = Return final →
  ∃ mid, fold_insights re_search company (Return init) hits = Return mid
         ∧ insights_step re_search company mid h = Return final.
Proof.
  rewrite fold_insights_app.
  destruct (fold_insights re_search company (Return init) hits) as [mid|e]; [|done].
  intros H. by exists mid.
Qed.

(** Induction over the hits processed so far. *)
Lemma fold_insights_ind (P : dict → list search_result → Prop) init :
  P init [] →
  (∀ insights hits h insights',
     P insights hits →
     insights_step re_search company insights h = Return insights' →
     P insights' (hits ++ [h])) →
  ∀ hits final,
    fold_insights re_search company (Return init) hits = Return final → P final hits.
Proof.
  intros Hinit Hstep hits. induction hits as [|h hits IH] using rev_ind; intros final.
  - by intros [= <-].
  - intros (mid & Hmid & Hfinal)%fold_insights_snoc_inv. eauto.
Qed.

Lemma extract_insights_inv hits extracted :
  _extract_insights re_search hits company = Return extracted →
  ∃ insights, fold_insights re_search company (Return ∅) hits = Return insights
              ∧ extracted = _deduplicate_insights insights.
Proof.
  unfold _extract_insights. fold (fold_insights re_search company (Return ∅) hits).
  destruct (fold_insights _ _ _ hits) as [insights|e]; [|done].
  simpl. intros [= <-]. by exists insights.
Qed.

Lemma deduplicate_other insights k :
  k ≠ "product_names" → k ≠ "key_competitors" →
  _deduplicate_insights insights !! k = insights !! k.
Proof.
  intros H1 H2. unfold _deduplicate_insights.
  destruct (insights !! "product_names") as [v|] eqn:Hp.
  - rewrite (lookup_insert_ne _ "product_names" "key_competitors") by done.
    destruct (insights !! "key_competitors"); by rewrite ?lookup_insert_ne.
  - destruct (insights !! "key_competitors"); by rewrite ?lookup_insert_ne.
Qed.

Lemma deduplicate_products insights :
  (∀ p, p ∈ get_list (_deduplicate_insights insights) "product_names" ↔
        p ∈ get_list insights "product_names")
  ∧ NoDup (get_list (_deduplicate_insights insights) "product_names").
Proof.
  unfold _deduplicate_insights.
  destruct (insights !! "product_names") as [v|] eqn:Hp.
  - assert (get_list
              (match <["product_names" := FList (list_set (get_list insights "product_names"))]>
                       insights !! "key_competitors" with
               | Some _ =>
                   <["key_competitors" :=
                       FList (list_set (get_list
                         (<["product_names" := FList (list_set (get_list insights "product_names"))]>
                            insights) "key_competitors"))]>
                     (<["product_names" := FList (list_set (get_list insights "product_names"))]>
                        insights)
               | None =>
                   <["product_names" := FList (list_set (get_list insights "product_names"))]>
                     insights
               end) "product_names"
            = list_set (get_list insights "product_names")) as ->.
    { destruct (_ !! "key_competitors"); unfold get_list at 1;
        rewrite ?lookup_insert_ne by done; by rewrite lookup_insert_eq. }
    split; [|apply NoDup_remove_dups].
    intros p. unfold list_set. by rewrite elem_of_remove_dups.
  - assert (get_list
              (match insights !! "key_competitors" with
               | Some _ =>
                   <["key_competitors" :=
                       FList (list_set (get_list insights "key_competitors"))]> insights
               | None => insights
               end) "product_names" = []) as ->.
    { destruct (insights !! "key_competitors"); unfold get_list;
        rewrite ?lookup_insert_ne by done; by rewrite Hp. }
    split; [|apply NoDup_nil_2]. intros p. unfold get_list. by rewrite Hp.
Qed.

(** X5: whatever the hits, an extraction that returns lists as products
    exactly the products found in some hit, each once. *)
Theorem extract_insights_products (hits : list search_result) (extracted : dict) :
  _extract_insights re_search hits company = Return extracted →
  (∀ p, p ∈ get_list extracted "product_names" ↔
        ∃ h, h ∈ hits ∧ p ∈ _extract_products (hit_text h) (c_name company))
  ∧ NoDup (get_list extracted "product_names").
Proof.
  intros (insights & Hfold & ->)%extract_insights_inv.
  destruct (deduplicate_products insights) as [Hmem Hnd]. split; [|exact Hnd].
  intros p. rewrite Hmem. clear Hmem Hnd.
  revert hits insights Hfold.
  apply (fold_insights_ind
           (fun insights hits =>
              p ∈ get_list insights "product_names" ↔
              ∃ h, h ∈ hits ∧ p ∈ _extract_products (hit_text h) (c_name company))).
  - unfold get_list. rewrite lookup_empty. split; [by intros ?%elem_of_nil|].
    by intros (h & ?%elem_of_nil & _).
  - intros insights hits h insights' IH Hstep.
    destruct (insights_step_products re_search company insights h insights' p Hstep)
      as [-> _].
    rewrite IH. split.
    + intros [(h' & Hin & Hp)|Hp].
      * exists h'. split; [|done]. apply elem_of_app. by left.
      * exists h. split; [|done]. apply elem_of_app. right. by apply list_elem_of_singleton.
    + intros (h' & [Hin| ->%list_elem_of_singleton]%elem_of_app & Hp).
      * left. by exists h'.
      * by right.
Qed.

(** X6: an extraction from at least one hit always carries both scalar
    keys, with [None] when nothing was found, so merging it replaces the
    value proposition and the pricing model of the running result. *)
Theorem extract_insights_scalars_present (hits : list search_result)
    (extracted results : dict) :
  hits ≠ [] →
  _extract_insights re_search hits company = Return extracted →
  is_Some (extracted !! "company_value_prop")
  ∧ is_Some (extracted !! "pricing_model")
  ∧ dict_update results extracted !! "company_value_prop"
    = extracted !! "company_value_prop"
  ∧ dict_update results extracted !! "pricing_model" = extracted !! "pricing_model".
Proof.
  intros Hne (insights & Hfold & ->)%extract_insights_inv.
  assert (is_Some (insights !! "company_value_prop")
          ∧ is_Some (insights !! "pricing_model")) as [[v1 H1] [v2 H2]].
  { destruct hits as [|h0 hits0] using rev_ind; [done|].
    apply fold_insights_snoc_inv in Hfold as (mid & _ & Hstep).
    apply insights_step_scalars in Hstep. tauto. }
  rewrite !dict_update_lookup, !deduplicate_other by done.
  rewrite H1, H2. by repeat split; eexists.
Qed.

(** X7: within one extraction the first non-empty value wins: a scalar
    found in the first hits is not changed by any further hit. *)
Theorem extract_insights_first_wins (hits more : list search_result)
    (found extracted : dict) (k : string) :
  k = "company_value_prop" ∨ k = "pricing_model" →
  _extract_insights re_search hits company = Return found →
  get_truthy found k = true →
  _extract_insights re_search (hits ++ more) company = Return extracted →
  extracted !! k = found !! k.
Proof.
  intros Hk (mid & Hmid & ->)%extract_insights_inv Ht
         (final & Hfinal & ->)%extract_insights_inv.
  assert (_deduplicate_insights mid !! k = mid !! k) as Hdm
    by (destruct Hk as [-> | ->]; by apply deduplicate_other).
  assert (_deduplicate_insights final !! k = final !! k) as ->
    by (destruct Hk as [-> | ->]; by apply deduplicate_other).
  rewrite Hdm. unfold get_truthy in Ht. rewrite Hdm in Ht.
  rewrite fold_insights_app, Hmid in Hfinal.
  revert more final Hfinal.
  apply (fold_insights_ind (fun insights _ => insights !! k = mid !! k)); [done|].
  intros insights _ h insights' IH Hstep.
  apply insights_step_scalars in Hstep as (_ & _ & Hvp & Hpr).
  rewrite <- IH. destruct Hk as [-> | ->].
  - apply Hvp. unfold get_truthy. by rewrite IH.
  - apply Hpr. unfold get_truthy. by rewrite IH.
Qed.

End ExtractionRuns.

(** ** Searches and saves of a run *)

Section LoopEnd.

Variable provider : SearchProvider.
Variable extract : list search_result → Company → outcome dict.
Variable progress_callback : bool.
Variable company : Company.
Variable person : Person.

Local Abbreviation loop := (research_loop provider extract progress_callback).

Lemma saved_step query results iteration t :
  saved (Searched query :: Merged results
           :: callback_events progress_callback iteration results ++ t)
  = saved t.
Proof. unfold callback_events. by destruct progress_callback. Qed.

(** The loop writes nothing to the database. *)
Lemma loop_saves_nothing fuel iteration results sr :
  saved (loop fuel company person iteration results sr).1 = [].
Proof.
  revert iteration results sr.
  induction fuel as [|fuel IH]; intros iteration results sr;
    destruct (continues iteration results) eqn:Hg.
  - by rewrite research_loop_fuel0.
  - by rewrite research_loop_stop.
  - rewrite research_loop_step by done. cbv zeta.
    destruct (search provider iteration _) as [hits|e]; [|done].
    destruct (extract hits company) as [extracted|e]; [|done].
    cbn [fst]. rewrite saved_step. apply IH.
  - by rewrite research_loop_stop.
Qed.

(** When the loop ends by itself, every search was followed by a merge, and
    the hits it hands on are those of its last search, if it made one. *)
Lemma loop_last_hits fuel iteration results sr final sr' :
  (loop fuel company person iteration results sr).2 = Some (Return (final, sr')) →
  length (merged (loop fuel company person iteration results sr).1)
  = length (searched (loop fuel company person iteration results sr).1)
  ∧ match last (searched (loop fuel company person iteration results sr).1) with
    | None => sr' = sr
    | Some query =>
        ∃ hits,
          search provider
            (iteration
             + length (searched (loop fuel company person iteration results sr).1) - 1)
            query = Return hits
          ∧ sr' = Some hits
    end.
Proof.
  revert iteration results sr.
  induction fuel as [|fuel IH]; intros iteration results sr;
    destruct (continues iteration results) eqn:Hg.
  - by rewrite research_loop_fuel0.
  - rewrite research_loop_stop by done. simpl. by intros [= _ <-].
  - rewrite research_loop_step by done. cbv zeta.
    destruct (search provider iteration _) as [hits|e] eqn:Hs; [|done].
    destruct (extract hits company) as [extracted|e]; [|done].
    cbn [fst snd]. rewrite searched_step, merged_step. intros Hret.
    destruct (IH _ _ _ Hret) as [Hlen Hlast]. split; [simpl; by rewrite Hlen|].
    destruct (searched (loop fuel company person (iteration + 1)
                          (dict_update results extracted) (Some hits)).1)
      as [|q qs] eqn:Hq.
    + simpl in *. exists hits. split; [|done].
      by replace (iteration + 1 - 1)%nat with iteration by lia.
    + rewrite last_cons. destruct (last (q :: qs)) as [query|] eqn:Hl.
      * destruct Hlast as (hits' & Hs' & ->). exists hits'. split; [|done].
        rewrite <- Hs'. f_equal. simpl. lia.
      * by rewrite last_cons in Hl; destruct (last qs).
  - rewrite research_loop_stop by done. simpl. by intros [= _ <-].
Qed.

(** The first pass always runs, and asks the overview question. *)
Lemma loop_first_query fuel :
  head (searched (loop (S fuel) company person 0 ∅ None).1)
  = Some (overview_query company).
Proof.
  rewrite research_loop_step by done. cbv zeta.
  assert (_generate_search_query company person ∅ 0 = overview_query company) as ->
    by reflexivity.
  destruct (search provider 0 _) as [hits|e]; [|done].
  destruct (extract hits company) as [extracted|e]; [|done].
  cbn [fst]. by rewrite searched_step.
Qed.

End LoopEnd.

(** X8: a run on a target that resolves always searches at least once, and
    its first query is the overview query built from the company's name,
    whatever the provider and the extractor do. *)
Theorem research_person_first_query
    (provider : SearchProvider)
    (extract : list search_result → Company → outcome dict)
    (progress_callback : bool) (db : database) (person_id : string)
    (company : Company) :
  resolve db person_id = Some company →
  head (searched (research_person provider extract progress_callback db person_id).1)
  = Some (overview_query company).
Proof.
  unfold resolve. intros Hres.
  destruct (people db !! person_id) as [person|] eqn:Hp; [|done]. simpl in Hres.
  destruct (research_person_loop_trace provider extract progress_callback
              max_iterations db person_id person company Hp Hres) as (Hs & _ & _).
  unfold research_person. rewrite Hs. apply loop_first_query.
Qed.

(** X9: a run writes to the database only when it completes, and then
    exactly once, as its last action: the snippet saved belongs to the
    company, holds the returned dictionary, and lists the URLs of the hits
    of the run's last search.  A run that fails saves nothing. *)
Theorem research_person_saves
    (provider : SearchProvider)
    (extract : list search_result → Company → outcome dict)
    (progress_callback : bool) (fuel : nat) (db : database) (person_id : string) :
  let t := (research_person_fuel provider extract progress_callback fuel db person_id).1 in
  match (research_person_fuel provider extract progress_callback fuel db person_id).2 with
  | Some (Return r) =>
      ∃ t0 company query hits,
        t = t0 ++ [Saved (c_id company) r (source_urls hits)]
        ∧ saved t0 = []
        ∧ resolve db person_id = Some company
        ∧ last (searched t) = Some query
        ∧ search provider (length (searched t) - 1) query = Return hits
  | _ => saved t = []
  end.
Proof.
  cbv zeta.
  destruct (resolve db person_id) as [company|] eqn:Hres.
  - unfold resolve in Hres.
    destruct (people db !! person_id) as [person|] eqn:Hp; [|done]. simpl in Hres.
    rewrite (research_person_resolved _ _ _ _ _ _ _ _ Hp Hres).
    pose proof (loop_saves_nothing provider extract progress_callback company person
                  fuel 0 ∅ None) as Hnone.
    pose proof (loop_last_hits provider extract progress_callback company person
                  fuel 0 ∅ None) as Hlast.
    destruct (research_loop _ _ _ _ _ _ _ _ _) as [t [[[results sr]|e]|]];
      cbn [fst snd] in *; [|done..].
    specialize (Hlast results sr eq_refl) as [_ Hlast].
    destruct (selected_results provider company) as [table_results|e]; [|done].
    destruct sr as [hits|]; [|done]. cbn [fst snd].
    assert (searched (t ++ [Saved (c_id company) (_validate_results table_results)
                              (source_urls hits)]) = searched t) as Hsame.
    { unfold searched. rewrite omap_app. simpl. by rewrite app_nil_r. }
    rewrite Hsame.
    destruct (last (searched t)) as [query|]; [|done].
    destruct Hlast as (hits' & Hs & [= <-]).
    exists t, company, query, hits. repeat split; done.
  - destruct (research_person_unresolved provider extract progress_callback
                fuel db person_id Hres) as [msg ->].
    done.
Qed.

(** ** Runs of the agent with its own extractor *)

(** X10: the agent's own extractor never yields the company's domain, so the
    early exit of the loop never fires: every completed run of the agent
    makes exactly three searches, and after each of them the domain is still
    missing and is reported as remaining in the progress event. *)
Theorem agent_never_exits_early
    (re_search : string → string → outcome (option string))
    (search_provider : option SearchProvider)
    (progress_callback : bool) (db : database) (person_id : string) (r : dict) :
  (DeepResearchAgent re_search search_provider progress_callback db person_id).2
    = Some (Return r) →
  let t := (DeepResearchAgent re_search search_provider progress_callback db person_id).1 in
  length (searched t) = 3%nat
  ∧ Forall (fun rk => "company_domain" ∈ _get_missing_fields rk) (merged t)
  ∧ Forall (fun u => "company_domain" ∈ pu_fields_remaining u) (progressed t).
Proof.
  unfold DeepResearchAgent, research_person. intros Hrun. cbv zeta.
  set (provider := default MockSearchProvider search_provider) in *.
  destruct (research_person_completed_resolves _ _ _ _ _ _ _ Hrun)
    as (person & company & Hp & Hc).
  destruct (research_person_loop_trace provider (_extract_insights re_search)
              progress_callback max_iterations db person_id person company Hp Hc)
    as (Hs & Hm & Hpr).
  rewrite Hs, Hm, Hpr.
  rewrite (research_person_resolved _ _ _ _ _ _ _ _ Hp Hc) in Hrun.
  pose proof (loop_progressed provider (_extract_insights re_search) progress_callback
                company person max_iterations 0 ∅ None) as Hev.
  pose proof (loop_all_passes provider (_extract_insights re_search) progress_callback
                company person (extract_insights_no_domain re_search)
                max_iterations 0 ∅ None) as Hlen.
  pose proof (loop_last_hits provider (_extract_insights re_search) progress_callback
                company person max_iterations 0 ∅ None) as Hlast.
  pose proof (loop_merged_no_domain provider (_extract_insights re_search)
                progress_callback company person (extract_insights_no_domain re_search)
                max_iterations 0 ∅ None (lookup_empty _)) as Hnd.
  destruct (research_loop _ _ _ _ _ _ _ _ _) as [t [[[results sr]|e]|]]; [|done..].
  cbn [fst snd] in *.
  specialize (Hlen (results, sr) (lookup_empty _)).
  destruct (Hlast results sr eq_refl) as [Hsame _].
  rewrite Hev, <- Hsame. clear Hev Hrun Hlast.
  assert (length (merged t) = 3%nat) as Hl.
  { apply Hlen; [unfold max_iterations; lia|done]. }
  split; [exact Hl|].
  assert (Forall (fun rk => "company_domain" ∈ _get_missing_fields rk) (merged t)) as Hmiss.
  { eapply Forall_impl; [exact Hnd|]. intros rk. apply missing_domain. }
  split; [exact Hmiss|].
  destruct progress_callback; [|constructor].
  destruct (merged t) as [|m0 [|m1 [|m2 [|m3 ms]]]]; try discriminate Hl.
  apply Forall_cons in Hmiss as [H0 Hmiss].
  apply Forall_cons in Hmiss as [H1 Hmiss].
  apply Forall_cons in Hmiss as [H2 _].
  by repeat constructor.
Qed.

(** ** The default agent *)

Lemma mock_hits_name_no_competitor (query : string) (h : search_result) :
  h ∈ mock_search query →
  existsb (mentioned (hit_text h)) common_competitors = false.
Proof.
  unfold mock_search.
  destruct (contains "alpha" (lower query));
    [|destruct (contains "techcorp" (lower query))];
    intros ->%list_elem_of_singleton; by vm_compute.
Qed.

Section TotalMatcher.

Variable re_search : string → string → outcome (option string).
Variable company : Company.

(** The matcher accepts every pattern it is given. *)
Hypothesis re_total : ∀ pattern text, ∃ m, re_search pattern text = Return m.

Lemma first_match_total patterns text :
  ∃ m, first_match re_search patterns text = Return m.
Proof.
  induction patterns as [|pattern rest IH]; [by eexists|]. simpl.
  destruct (re_total pattern text) as [m ->]. simpl.
  destruct m as [g|]; [by eexists|exact IH].
Qed.

Lemma insights_step_total insights h :
  existsb (mentioned (hit_text h)) common_competitors = false →
  ∃ insights', insights_step re_search company insights h = Return insights'.
Proof.
  intros Hno. unfold insights_step. fold (hit_text h).
  assert (∃ l, _extract_competitors (hit_text h) (c_name company) = Return l)
    as [l Hl].
  { rewrite extract_competitors_fold. destruct (c_name company) as [name|].
    - rewrite competitor_fold_named. by eexists.
    - rewrite competitor_fold_unnamed, Hno. by eexists. }
  destruct (get_truthy insights "company_value_prop").
  - simpl. rewrite Hl. simpl. by eexists.
  - destruct (first_match_total (value_prop_patterns (c_name company)) (hit_text h))
      as [vp Hvp].
    unfold _extract_value_prop. rewrite Hvp. simpl. rewrite Hl. simpl. by eexists.
Qed.

Lemma extract_insights_total hits :
  (∀ h, h ∈ hits → existsb (mentioned (hit_text h)) common_competitors = false) →
  ∃ extracted, _extract_insights re_search hits company = Return extracted.
Proof.
  intros Hno. unfold _extract_insights.
  assert (∀ init, ∃ insights,
            foldl (fun acc result =>
                     insights ← acc; insights_step re_search company insights result)
                  (Return init) hits = Return insights) as Hfold.
  { induction hits as [|h hits IH]; intros init; [by eexists|]. simpl.
    destruct (insights_step_total init h) as [insights' ->].
    - apply Hno. by left.
    - apply IH. intros h' Hin. apply Hno. by right. }
  destruct (Hfold ∅) as [insights ->]. simpl. by eexists.
Qed.

End TotalMatcher.

Section LoopReturns.

Variable provider : SearchProvider.
Variable extract : list search_result → Company → outcome dict.
Variable progress_callback : bool.
Variable company : Company.
Variable person : Person.

(** Neither the provider nor the extractor raises. *)
Hypothesis never_raises : ∀ calls query,
  ∃ hits extracted,
    search provider calls query = Return hits
    ∧ extract hits company = Return extracted.

Lemma loop_returns fuel iteration results sr :
  (max_iterations - iteration ≤ fuel)%nat →
  ∃ final, (research_loop provider extract progress_callback fuel company person
              iteration results sr).2 = Some (Return final).
Proof.
  revert iteration results sr.
  induction fuel as [|fuel IH]; intros iteration results sr Hfuel;
    destruct (continues iteration results) eqn:Hg.
  - apply continues_lt in Hg as [? ?]. lia.
  - rewrite research_loop_stop by done. by eexists.
  - apply continues_lt in Hg as Hg'. destruct Hg' as [? ?].
    rewrite research_loop_step by done. cbv zeta.
    destruct (never_raises iteration
                (_generate_search_query company person results iteration))
      as (hits & extracted & -> & ->).
    cbn [snd]. apply IH. lia.
  - rewrite research_loop_stop by done. by eexists.
Qed.

End LoopReturns.

(** X11: with the mock provider and a matcher that accepts every pattern,
    the agent completes on every target that resolves (none of the mock
    snippets names a competitor, so not even a company without a name makes
    the extractor fail) and returns the table entry chosen by the
    company's name. *)
Theorem default_agent_completes
    (re_search : string → string → outcome (option string))
    (progress_callback : bool) (db : database) (person_id : string)
    (company : Company) :
  (∀ pattern text, ∃ m, re_search pattern text = Return m) →
  resolve db person_id = Some company →
  (DeepResearchAgent re_search None progress_callback db person_id).2
  = Some (Return (if name_has_alpha (c_name company)
                  then alpha_results else techcorp_results)).
Proof.
  intros Htotal Hres. unfold resolve in Hres.
  destruct (people db !! person_id) as [person|] eqn:Hp; [|done]. simpl in Hres.
  unfold DeepResearchAgent, research_person. cbn [default].
  rewrite (research_person_resolved _ _ _ _ _ _ _ _ Hp Hres).
  assert (∀ calls query, ∃ hits extracted,
            search MockSearchProvider calls query = Return hits
            ∧ _extract_insights re_search hits company = Return extracted) as Hnever.
  { intros calls query. exists (mock_search query).
    destruct (extract_insights_total re_search company Htotal (mock_search query))
      as [extracted Hex]; [apply mock_hits_name_no_competitor|].
    by exists extracted. }
  destruct (loop_returns MockSearchProvider (_extract_insights re_search)
              progress_callback company person Hnever max_iterations 0 ∅ None)
    as [[final sr] Hret]; [unfold max_iterations; lia|].
  pose proof (loop_last_hits MockSearchProvider (_extract_insights re_search)
                progress_callback company person max_iterations 0 ∅ None final sr Hret)
    as [_ Hlast].
  pose proof (loop_first_query MockSearchProvider (_extract_insights re_search)
                progress_callback company person 2) as Hfirst.
  change (S 2) with max_iterations in Hfirst.
  destruct (research_loop _ _ _ _ _ _ _ _ _) as [t o]. cbn [fst snd] in *. subst o.
  assert (∃ hits, sr = Some hits) as [hits ->].
  { destruct (searched t) as [|q qs]; [done|].
    destruct (last (q :: qs)) as [query|] eqn:Hl.
    - destruct Hlast as (hits & _ & ->). by exists hits.
    - rewrite last_cons in Hl. by destruct (last qs). }
  unfold selected_results. cbn [mock_results MockSearchProvider].
  rewrite company_key_alpha.
  destruct (name_has_alpha (c_name company)).
  - rewrite mock_table_alpha. cbn [snd]. by rewrite validate_alpha.
  - rewrite mock_table_techcorp. cbn [snd]. by rewrite validate_techcorp.
Qed.

Lemma default_agent_completes_witness :
  (∀ pattern text, ∃ m, re_never pattern text = Return m)
  ∧ resolve sample_db "p1" = Some acme
  ∧ (DeepResearchAgent re_never None true sample_db "p1").2
    = Some (Return techcorp_results).
Proof.
  assert (∀ pattern text, ∃ m, re_never pattern text = Return m) as Htotal.
  { intros pattern text. exists None. reflexivity. }
  assert (resolve sample_db "p1" = Some acme) as Hres by by_evaluation.
  split; [exact Htotal|]. split; [exact Hres|].
  exact (default_agent_completes re_never true sample_db "p1" acme Htotal Hres).
Defined.

(** * Further properties of the session service *)

(** ** Registry operations *)

(** X12: starting a session on a fresh id and cleaning it up again leaves
    the registry as it was; after the cleanup the session is not found. *)
Theorem start_cleanup_round_trip (st : service)
    (session_id person_id person_name now : string) :
  progress_data st !! session_id = None →
  progress_data (cleanup_session session_id
                   (start_research_session session_id person_id person_name now st))
  = progress_data st
  ∧ get_session_progress session_id
      (cleanup_session session_id
         (start_research_session session_id person_id person_name now st)) = None.
Proof.
  intros Hfresh. unfold cleanup_session, start_research_session, get_session_progress.
  cbn [progress_data emit set_progress_data]. rewrite lookup_insert_eq.
  cbn [progress_data set_progress_data].
  rewrite delete_insert_eq, lookup_delete_eq. split; [|done].
  by apply delete_id.
Qed.

Lemma start_cleanup_round_trip_witness :
  progress_data empty_service !! "s1" = None
  ∧ progress_data (cleanup_session "s1" started) = progress_data empty_service.
Proof.
  assert (progress_data empty_service !! "s1" = None) as Hfresh by reflexivity.
  split; [exact Hfresh|].
  exact (proj1 (start_cleanup_round_trip empty_service "s1" "p1" "Ann"
                  "2025-07-28T12:00:00" Hfresh)).
Defined.

(** X13: what is broadcast is what is stored: updating, completing or
    failing a registered session each sends exactly one message, to the
    session's room, whose payload is the snapshot that the lookup returns
    right afterwards. *)
Theorem broadcast_is_stored_snapshot (st : service) (session_id : string)
    (now message : string) (patch : snapshot) (results : json) :
  is_Some (progress_data st !! session_id) →
  (∃ snap, get_session_progress session_id (update_progress session_id patch st)
           = Some snap
           ∧ outbox (update_progress session_id patch st)
             = outbox st ++ [mkEmission (ToRoom session_id) "progress_update" snap])
  ∧ (∃ snap, get_session_progress session_id
               (complete_research session_id results now st) = Some snap
             ∧ outbox (complete_research session_id results now st)
               = outbox st ++ [mkEmission (ToRoom session_id) "research_completed" snap])
  ∧ (∃ snap, get_session_progress session_id
               (error_research session_id message now st) = Some snap
             ∧ outbox (error_research session_id message now st)
               = outbox st ++ [mkEmission (ToRoom session_id) "research_error" snap]).
Proof.
  intros [snap0 Hsnap].
  unfold get_session_progress, update_progress, complete_research, error_research.
  rewrite Hsnap. cbn [progress_data emit set_progress_data outbox].
  repeat split; eexists; (split; [apply lookup_insert_eq|reflexivity]).
Qed.

Lemma broadcast_is_stored_snapshot_witness :
  is_Some (progress_data started !! "s1")
  ∧ (∃ snap, get_session_progress "s1" (update_progress "s1" halfway_patch started)
             = Some snap
             ∧ outbox (update_progress "s1" halfway_patch started)
               = outbox started ++ [mkEmission (ToRoom "s1") "progress_update" snap])
  ∧ (∃ snap, get_session_progress "s1"
               (complete_research "s1" (JList [company_info_entry])
                  "2025-07-28T12:00:09" started) = Some snap
             ∧ outbox (complete_research "s1" (JList [company_info_entry])
                         "2025-07-28T12:00:09" started)
               = outbox started ++ [mkEmission (ToRoom "s1") "research_completed" snap])
  ∧ (∃ snap, get_session_progress "s1"
               (error_research "s1" "boom" "2025-07-28T12:00:09" started) = Some snap
             ∧ outbox (error_research "s1" "boom" "2025-07-28T12:00:09" started)
               = outbox started ++ [mkEmission (ToRoom "s1") "research_error" snap]).
Proof.
  assert (is_Some (progress_data started !! "s1")) as Hreg.
  { eexists. reflexivity. }
  split; [exact Hreg|].
  exact (broadcast_is_stored_snapshot started "s1" "2025-07-28T12:00:09"
           "boom" halfway_patch (JList [company_info_entry]) Hreg).
Defined.

Lemma completed_patch_lookup (now : string) (results : json) (k : string) :
  k ∉ completed_patch_keys → completed_patch now results !! k = None.
Proof.
  unfold completed_patch_keys, completed_patch. intros Hk.
  apply not_elem_of_list_to_map. simpl. exact Hk.
Qed.

(** X14: completing a registered session sets its status to "completed" and
    its progress to 100, stamps the completion time and replaces the results
    gathered so far by the results given; every key outside the patch, the
    number of steps completed among them, keeps its value, and no other
    session is touched. *)
Theorem complete_research_frame (st : service) (session_id now : string)
    (results : json) (snap : snapshot) :
  progress_data st !! session_id = Some snap →
  ∃ snap',
    get_session_progress session_id (complete_research session_id results now st)
      = Some snap'
    ∧ snap' !! "status" = Some (JStr "completed")
    ∧ snap' !! "progress" = Some (JInt 100)
    ∧ snap' !! "completion_time" = Some (JStr now)
    ∧ snap' !! "results" = Some results
    ∧ snap' !! "steps_completed" = snap !! "steps_completed"
    ∧ (∀ k, k ∉ completed_patch_keys → snap' !! k = snap !! k)
    ∧ (∀ other, other ≠ session_id →
         progress_data (complete_research session_id results now st) !! other
         = progress_data st !! other).
Proof.
  intros Hsnap. exists (apply_patch (completed_patch now results) snap).
  unfold get_session_progress, complete_research. rewrite Hsnap.
  cbn [progress_data emit set_progress_data].
  assert (∀ k, k ∉ completed_patch_keys →
            apply_patch (completed_patch now results) snap !! k = snap !! k) as Hframe.
  { intros k Hk. unfold apply_patch. rewrite lookup_union_r; [done|].
    by apply completed_patch_lookup. }
  split; [by rewrite lookup_insert_eq|].
  split; [unfold apply_patch; by erewrite lookup_union_Some_l|].
  split; [unfold apply_patch; by erewrite lookup_union_Some_l|].
  split; [unfold apply_patch; by erewrite lookup_union_Some_l|].
  split; [unfold apply_patch; by erewrite lookup_union_Some_l|].
  split.
  { apply Hframe. unfold completed_patch_keys. rewrite !elem_of_cons, elem_of_nil.
    intros [?|[?|[?|[?|[?|[]]]]]]; discriminate. }
  split; [exact Hframe|].
  intros other Hne. by rewrite lookup_insert_ne.
Qed.

Lemma complete_research_frame_witness :
  progress_data in_flight !! "s1" = Some partial_snapshot
  ∧ ∃ snap',
      get_session_progress "s1"
        (complete_research "s1" (JList []) "2025-07-28T12:00:12" in_flight) = Some snap'
      ∧ snap' !! "results" = Some (JList []).
Proof.
  assert (progress_data in_flight !! "s1" = Some partial_snapshot) as Hsnap
    by by_evaluation.
  split; [exact Hsnap|].
  destruct (complete_research_frame in_flight "s1" "2025-07-28T12:00:12" (JList [])
              partial_snapshot Hsnap) as (snap' & Hget & _ & _ & _ & Hres & _).
  exists snap'. split; [exact Hget|exact Hres].
Defined.

Lemma update_progress_lookup st session_id patch snap :
  progress_data st !! session_id = Some snap →
  progress_data (update_progress session_id patch st)
  = <[session_id := apply_patch patch snap]> (progress_data st).
Proof. intros H. unfold update_progress. by rewrite H. Qed.

Lemma complete_research_lookup st session_id results now snap :
  progress_data st !! session_id = Some snap →
  progress_data (complete_research session_id results now st)
  = <[session_id := apply_patch (completed_patch now results) snap]> (progress_data st).
Proof. intros H. unfold complete_research. by rewrite H. Qed.

Lemma error_research_lookup st session_id message now snap :
  progress_data st !! session_id = Some snap →
  progress_data (error_research session_id message now st)
  = <[session_id := apply_patch (error_patch now message) snap]> (progress_data st).
Proof. intros H. unfold error_research. by rewrite H. Qed.

Lemma error_patch_keys_not (k : string) :
  k = "progress" ∨ k = "results" ∨ k = "completion_time" → k ∉ error_patch_keys.
Proof.
  unfold error_patch_keys. rewrite !elem_of_cons, elem_of_nil.
  intros [Hk|[Hk|Hk]]; subst k; intros [?|[?|[?|[?|[]]]]]; discriminate.
Qed.

(** X15: a terminal status is not final.  Failing a session after it was
    completed turns its status to "error" while progress stays at 100 and
    the completed results stay; completing a session after it failed turns
    its status to "completed" while the error message stays in the
    snapshot. *)
Theorem terminal_status_not_sticky (st : service) (session_id : string)
    (snap : snapshot) (results : json) (message t1 t2 : string) :
  progress_data st !! session_id = Some snap →
  (∃ s, get_session_progress session_id
          (error_research session_id message t2
             (complete_research session_id results t1 st)) = Some s
        ∧ s !! "status" = Some (JStr "error")
        ∧ s !! "progress" = Some (JInt 100)
        ∧ s !! "results" = Some results
        ∧ s !! "error_message" = Some (JStr message))
  ∧ (∃ s, get_session_progress session_id
            (complete_research session_id results t2
               (error_research session_id message t1 st)) = Some s
          ∧ s !! "status" = Some (JStr "completed")
          ∧ s !! "results" = Some results
          ∧ s !! "error_message" = Some (JStr message)).
Proof.
  intros Hsnap. unfold get_session_progress. split.
  - erewrite error_research_lookup;
      [|erewrite complete_research_lookup by done; apply lookup_insert_eq].
    eexists. split; [apply lookup_insert_eq|]. unfold apply_patch.
    split; [by erewrite lookup_union_Some_l|].
    split; [|split].
    + rewrite lookup_union_r by (apply error_patch_lookup, error_patch_keys_not; tauto).
      by erewrite lookup_union_Some_l.
    + rewrite lookup_union_r by (apply error_patch_lookup, error_patch_keys_not; tauto).
      by erewrite lookup_union_Some_l.
    + by erewrite lookup_union_Some_l.
  - erewrite complete_research_lookup;
      [|erewrite error_research_lookup by done; apply lookup_insert_eq].
    eexists. split; [apply lookup_insert_eq|]. unfold apply_patch.
    split; [by erewrite lookup_union_Some_l|].
    split; [by erewrite lookup_union_Some_l|].
    rewrite lookup_union_r.
    + by erewrite lookup_union_Some_l.
    + apply completed_patch_lookup. unfold completed_patch_keys.
      rewrite !elem_of_cons, elem_of_nil. intros [?|[?|[?|[?|[?|[]]]]]]; discriminate.
Qed.

Lemma terminal_status_not_sticky_witness :
  progress_data started !! "s1"
    = Some (initial_snapshot "s1" "p1" "Ann" "2025-07-28T12:00:00")
  ∧ ∃ s, get_session_progress "s1"
           (error_research "s1" "boom" "2025-07-28T12:00:20" finished) = Some s
         ∧ s !! "status" = Some (JStr "error")
         ∧ s !! "progress" = Some (JInt 100).
Proof.
  assert (progress_data started !! "s1"
          = Some (initial_snapshot "s1" "p1" "Ann" "2025-07-28T12:00:00")) as Hsnap
    by reflexivity.
  split; [exact Hsnap|].
  destruct (proj1 (terminal_status_not_sticky started "s1" _
                     (JList [company_info_entry]) "boom"
                     "2025-07-28T12:00:12" "2025-07-28T12:00:20" Hsnap))
    as (s & Hget & Hstatus & Hprogress & _).
  exists s. split; [exact Hget|]. split; [exact Hstatus|exact Hprogress].
Defined.

(** X16: sessions do not interfere: starting, updating, completing, failing
    or cleaning up one session leaves the snapshot of every other session as
    it was, and no socket handler ever changes the registry. *)
Theorem other_sessions_untouched (st : service) (session_id other sid : string)
    (person_id person_name now message : string) (patch : snapshot) (results : json)
    (requested : option string) :
  other ≠ session_id →
  progress_data (start_research_session session_id person_id person_name now st) !! other
    = progress_data st !! other
  ∧ progress_data (update_progress session_id patch st) !! other
    = progress_data st !! other
  ∧ progress_data (complete_research session_id results now st) !! other
    = progress_data st !! other
  ∧ progress_data (error_research session_id message now st) !! other
    = progress_data st !! other
  ∧ progress_data (cleanup_session session_id st) !! other = progress_data st !! other
  ∧ progress_data (handle_connect sid st) = progress_data st
  ∧ progress_data (handle_disconnect sid st) = progress_data st
  ∧ progress_data (handle_join_research_session sid requested st) = progress_data st
  ∧ progress_data (handle_leave_research_session sid requested st) = progress_data st
  ∧ progress_data (handle_get_progress sid requested st) = progress_data st.
Proof.
  intros Hne.
  unfold start_research_session, update_progress, complete_research, error_research,
    cleanup_session, handle_connect, handle_disconnect, handle_join_research_session,
    handle_leave_research_session, handle_get_progress.
  destruct (progress_data st !! session_id) as [snap|] eqn:Hsnap;
    destruct (active_sessions st !! sid);
    destruct (truthy_id requested) as [requested'|];
    try destruct (progress_data st !! requested');
    cbn [progress_data emit set_progress_data join_room leave_room];
    rewrite ?lookup_insert_ne, ?lookup_delete_ne by done; repeat split; done.
Qed.

Lemma other_sessions_untouched_witness :
  "s2" ≠ "s1"
  ∧ progress_data two_sessions !! "s2"
    = Some (initial_snapshot "s2" "p2" "Bob" "2025-07-28T12:00:01")
  ∧ progress_data (update_progress "s1" halfway_patch two_sessions) !! "s2"
    = Some (initial_snapshot "s2" "p2" "Bob" "2025-07-28T12:00:01")
  ∧ progress_data (complete_research "s1" (JList [company_info_entry])
                     "2025-07-28T12:00:09" two_sessions) !! "s2"
    = Some (initial_snapshot "s2" "p2" "Bob" "2025-07-28T12:00:01")
  ∧ progress_data (error_research "s1" "boom" "2025-07-28T12:00:09" two_sessions) !! "s2"
    = Some (initial_snapshot "s2" "p2" "Bob" "2025-07-28T12:00:01")
  ∧ progress_data (cleanup_session "s1" two_sessions) !! "s2"
    = Some (initial_snapshot "s2" "p2" "Bob" "2025-07-28T12:00:01").
Proof.
  assert ("s2" ≠ "s1") as Hne by discriminate.
  assert (progress_data two_sessions !! "s2"
          = Some (initial_snapshot "s2" "p2" "Bob" "2025-07-28T12:00:01")) as Hreg
    by by_evaluation.
  split; [exact Hne|]. split; [exact Hreg|].
  destruct (other_sessions_untouched two_sessions "s1" "s2" "c" "p" "Ann"
              "2025-07-28T12:00:09" "boom" halfway_patch (JList [company_info_entry])
              None Hne)
    as (_ & Hu & Hc & He & Hd & _).
  rewrite <- Hreg. split; [exact Hu|]. split; [exact Hc|]. split; [exact He|exact Hd].
Defined.

(** X17: updates compose like their patches: two updates in a row leave the
    registry as one update with the second patch laid over the first, and
    repeating an update changes nothing in the registry (each call still
    sends its message). *)
Theorem update_progress_compose (st : service) (session_id : string)
    (patch1 patch2 : snapshot) :
  is_Some (progress_data st !! session_id) →
  progress_data (update_progress session_id patch2 (update_progress session_id patch1 st))
  = progress_data (update_progress session_id (patch2 ∪ patch1) st)
  ∧ progress_data (update_progress session_id patch1
                     (update_progress session_id patch1 st))
    = progress_data (update_progress session_id patch1 st)
  ∧ length (outbox (update_progress session_id patch1
                      (update_progress session_id patch1 st)))
    = S (S (length (outbox st))).
Proof.
  intros [snap Hsnap].
  assert (∀ p, progress_data (update_progress session_id p st) !! session_id
               = Some (apply_patch p snap)) as Hafter.
  { intros p. rewrite (update_progress_lookup _ _ _ _ Hsnap). apply lookup_insert_eq. }
  split; [|split].
  - rewrite (update_progress_lookup _ _ _ _ (Hafter patch1)).
    rewrite !(update_progress_lookup _ _ _ _ Hsnap), insert_insert_eq.
    unfold apply_patch. by rewrite (assoc_L (∪)).
  - rewrite (update_progress_lookup _ _ _ _ (Hafter patch1)).
    rewrite !(update_progress_lookup _ _ _ _ Hsnap), insert_insert_eq.
    unfold apply_patch. by rewrite (assoc_L (∪)), (idemp_L (∪)).
  - unfold update_progress at 1. rewrite (Hafter patch1).
    cbn [outbox emit set_progress_data]. unfold update_progress. rewrite Hsnap.
    cbn [outbox emit set_progress_data]. rewrite !length_app. simpl. lia.
Qed.

Lemma update_progress_compose_witness :
  is_Some (progress_data started !! "s1")
  ∧ progress_data (update_progress "s1" (<["progress" := JInt 40]> ∅)
                     (update_progress "s1" (<["progress" := JInt 20]> ∅) started))
    = progress_data (update_progress "s1"
                       (<["progress" := JInt 40]> ∅ ∪ <["progress" := JInt 20]> ∅) started).
Proof.
  assert (is_Some (progress_data started !! "s1")) as Hreg.
  { eexists. reflexivity. }
  split; [exact Hreg|].
  exact (proj1 (update_progress_compose started "s1" (<["progress" := JInt 20]> ∅)
                  (<["progress" := JInt 40]> ∅) Hreg)).
Defined.

(** ** Socket handlers *)

(** X18: a join, leave or progress request without a session id (none, or
    the empty string) is ignored: nothing is sent and nothing changes.  With
    a session id, joining records it as the client's active session, and
    leaving (whatever session is named) or disconnecting forgets it; a
    progress request for a session that is not registered is not
    answered. *)
Theorem handlers_and_session_ids (st : service) (sid session_id named : string) :
  handle_join_research_session sid None st = st
  ∧ handle_join_research_session sid (Some "") st = st
  ∧ handle_leave_research_session sid None st = st
  ∧ handle_leave_research_session sid (Some "") st = st
  ∧ handle_get_progress sid None st = st
  ∧ handle_get_progress sid (Some "") st = st
  ∧ (progress_data st !! session_id = None →
     handle_get_progress sid (Some session_id) st = st)
  ∧ (is_empty session_id = false →
     active_sessions (handle_join_research_session sid (Some session_id) st) !! sid
     = Some session_id)
  ∧ (is_empty named = false →
     active_sessions (handle_leave_research_session sid (Some named) st) !! sid = None)
  ∧ active_sessions (handle_disconnect sid st) !! sid = None.
Proof.
  repeat split; try done.
  - intros Hnone. unfold handle_get_progress.
    destruct (truthy_id (Some session_id)) as [s|] eqn:Hs; [|done].
    unfold truthy_id in Hs. destruct (is_empty session_id); [done|].
    injection Hs as <-. by rewrite Hnone.
  - intros Hne. unfold handle_join_research_session, truthy_id. rewrite Hne.
    cbn [active_sessions emit join_room]. apply lookup_insert_eq.
  - intros Hne. unfold handle_leave_research_session, truthy_id. rewrite Hne.
    cbn [active_sessions emit leave_room]. apply lookup_delete_eq.
  - unfold handle_disconnect. destruct (active_sessions st !! sid) eqn:Hs; [|done].
    cbn [active_sessions]. apply lookup_delete_eq.
Qed.

(** ** More on the simulated run *)

Lemma in_progress_patch_other (i : nat) (step now k : string) :
  k ∉ in_progress_keys → in_progress_patch i step now !! k = None.
Proof.
  unfold in_progress_keys, in_progress_patch. intros Hk.
  apply not_elem_of_list_to_map. simpl. exact Hk.
Qed.

Lemma results_not_in_progress_keys : "results" ∉ in_progress_keys.
Proof.
  unfold in_progress_keys. rewrite !elem_of_cons, elem_of_nil.
  intros [?|[?|[?|[?|[?|[]]]]]]; discriminate.
Qed.

Section QuietRun.

Variable session_id : string.
Variable clock : nat → string.
Variable env : nat → registry → registry.

(** Nobody else touches this session while the run sleeps. *)
Hypothesis env_quiet : ∀ i reg, env i reg !! session_id = reg !! session_id.

Lemma simulate_loop_quiet (i : nat) (todo : list (string * nat)) (st : service)
    (snap : snapshot) (l : list json) :
  progress_data st !! session_id = Some snap →
  snap !! "results" = Some (JList l) →
  ∃ st' snap',
    simulate_loop session_id clock env i todo st = (st', Return ())
    ∧ progress_data st' !! session_id = Some snap'
    ∧ snap' !! "results" = Some (JList (l ++ gathered i (length todo)))
    ∧ (∀ k, k ∉ in_progress_keys → k ≠ "results" → snap' !! k = snap !! k).
Proof.
  revert i st snap l. induction todo as [|step_info todo IH]; intros i st snap l Hsnap Hres.
  - exists st, snap. unfold gathered. simpl. rewrite app_nil_r. by repeat split.
  - cbn [simulate_loop]. rewrite Hsnap.
    set (snap1 := apply_patch (in_progress_patch i step_info.1 (clock i)) snap).
    cbn [progress_data emit set_progress_data outbox active_sessions rooms].
    set (reg1 := env i (<[session_id := snap1]> (progress_data st))).
    assert (reg1 !! session_id = Some snap1) as Hreg1.
    { unfold reg1. rewrite env_quiet. apply lookup_insert_eq. }
    assert (snap1 !! "results" = Some (JList l)) as Hres1.
    { unfold snap1, apply_patch. rewrite lookup_union_r; [done|].
      apply in_progress_patch_other, results_not_in_progress_keys. }
    assert (∀ k, k ∉ in_progress_keys → snap1 !! k = snap !! k) as Hframe1.
    { intros k Hk. unfold snap1, apply_patch. rewrite lookup_union_r; [done|].
      by apply in_progress_patch_other. }
    assert (∃ reg2 snap2,
      (if decide (i = 1%nat) then append_result session_id company_info_entry reg1
       else if decide (i = 3%nat) then append_result session_id competitive_intel_entry reg1
       else Return reg1) = Return reg2
      ∧ reg2 !! session_id = Some snap2
      ∧ snap2 !! "results" = Some (JList (l ++ entry_at i))
      ∧ (∀ k, k ≠ "results" → snap2 !! k = snap1 !! k))
      as (reg2 & snap2 & -> & Hreg2 & Hres2 & Hframe2).
    { unfold entry_at, append_result. rewrite Hreg1, Hres1.
      repeat case_decide.
      - eexists _, _. split; [done|]. rewrite lookup_insert_eq. split; [done|].
        rewrite lookup_insert_eq. split; [done|]. intros k Hk. by rewrite lookup_insert_ne.
      - eexists _, _. split; [done|]. rewrite lookup_insert_eq. split; [done|].
        rewrite lookup_insert_eq. split; [done|]. intros k Hk. by rewrite lookup_insert_ne.
      - exists reg1, snap1. rewrite app_nil_r. by repeat split. }
    destruct (IH (S i)
                (set_progress_data
                   (mkService (active_sessions st) reg1 (rooms st)
                      (outbox st ++ [mkEmission (ToRoom session_id) "progress_update" snap1]))
                   reg2) snap2 (l ++ entry_at i) Hreg2 Hres2)
      as (st' & snap' & Hrun & Hsnap' & Hres' & Hframe').
    exists st', snap'. split; [exact Hrun|]. split; [exact Hsnap'|]. split.
    + rewrite Hres'. unfold gathered. simpl. by rewrite <- app_assoc.
    + intros k Hk Hkr. rewrite Hframe', Hframe2, Hframe1 by done. done.
Qed.

End QuietRun.

Lemma finished_patch_other (now k : string) :
  k ∉ in_progress_keys → k ≠ "completion_time" → finished_patch now !! k = None.
Proof.
  unfold in_progress_keys, finished_patch. intros Hk Hc.
  apply not_elem_of_list_to_map. simpl. rewrite !elem_of_cons, elem_of_nil in *.
  intros [?|[?|[?|[?|[?|[]]]]]]; subst; tauto.
Qed.

(** X19: when nobody else touches the session during the run, the run ends
    without an exception and leaves the session completed: status
    "completed", progress 100, five steps done, and the results it held at
    the start followed by the company information and the competitive
    intelligence entries; the entries that identify the session are
    unchanged. *)
Theorem simulated_run_result (session_id : string) (clock : nat → string)
    (env : nat → registry → registry) (st : service) (snap : snapshot) (l : list json) :
  (∀ i reg, env i reg !! session_id = reg !! session_id) →
  progress_data st !! session_id = Some snap →
  snap !! "results" = Some (JList l) →
  (_simulate_research_process session_id clock env st).2 = Return ()
  ∧ ∃ final,
      get_session_progress session_id
        (_simulate_research_process session_id clock env st).1 = Some final
      ∧ final !! "status" = Some (JStr "completed")
      ∧ final !! "progress" = Some (JInt 100)
      ∧ final !! "steps_completed" = Some (JInt 5)
      ∧ final !! "results"
        = Some (JList (l ++ [company_info_entry; competitive_intel_entry]))
      ∧ final !! "session_id" = snap !! "session_id"
      ∧ final !! "person_id" = snap !! "person_id"
      ∧ final !! "start_time" = snap !! "start_time".
Proof.
  intros Hquiet Hsnap Hres.
  destruct (simulate_loop_quiet session_id clock env Hquiet 0 steps st snap l Hsnap Hres)
    as (st' & snap' & Hrun & Hsnap' & Hres' & Hframe).
  unfold _simulate_research_process, get_session_progress.
  rewrite Hsnap, Hrun, Hsnap'. cbn [fst snd progress_data emit set_progress_data].
  split; [done|]. eexists. split; [apply lookup_insert_eq|].
  unfold apply_patch.
  split; [by erewrite lookup_union_Some_l|].
  split; [by erewrite lookup_union_Some_l|].
  split; [by erewrite lookup_union_Some_l|].
  assert (∀ k, k ∉ in_progress_keys → k ≠ "completion_time" →
            (finished_patch (clock (length steps)) ∪ snap') !! k = snap' !! k) as Hfin.
  { intros k Hk Hc. rewrite lookup_union_r; [done|]. by apply finished_patch_other. }
  assert (∀ k, k = "session_id" ∨ k = "person_id" ∨ k = "start_time" ∨ k = "results" →
            k ∉ in_progress_keys) as Hkeys.
  { unfold in_progress_keys. intros k Hk. rewrite !elem_of_cons, elem_of_nil.
    intros [?|[?|[?|[?|[?|[]]]]]]; subst;
      destruct Hk as [?|[?|[?|?]]]; discriminate. }
  split.
  { rewrite Hfin by first [apply Hkeys; tauto|done]. exact Hres'. }
  repeat split.
  - rewrite Hfin by first [apply Hkeys; tauto|done]. apply Hframe; [apply Hkeys; tauto|done].
  - rewrite Hfin by first [apply Hkeys; tauto|done]. apply Hframe; [apply Hkeys; tauto|done].
  - rewrite Hfin by first [apply Hkeys; tauto|done]. apply Hframe; [apply Hkeys; tauto|done].
Qed.

Lemma simulated_run_result_witness :
  (∀ i reg, undisturbed i reg !! "s1" = reg !! "s1")
  ∧ progress_data started !! "s1"
    = Some (initial_snapshot "s1" "p1" "Ann" "2025-07-28T12:00:00")
  ∧ initial_snapshot "s1" "p1" "Ann" "2025-07-28T12:00:00" !! "results" = Some (JList [])
  ∧ ∃ final,
      get_session_progress "s1"
        (_simulate_research_process "s1" steady_clock undisturbed started).1 = Some final
      ∧ final !! "results" = Some (JList [company_info_entry; competitive_intel_entry]).
Proof.
  assert (∀ i reg, undisturbed i reg !! "s1" = reg !! "s1") as Hquiet by reflexivity.
  assert (progress_data started !! "s1"
          = Some (initial_snapshot "s1" "p1" "Ann" "2025-07-28T12:00:00")) as Hsnap
    by reflexivity.
  assert (initial_snapshot "s1" "p1" "Ann" "2025-07-28T12:00:00" !! "results"
          = Some (JList [])) as Hres by by_evaluation.
  split; [exact Hquiet|]. split; [exact Hsnap|]. split; [exact Hres|].
  destruct (simulated_run_result "s1" steady_clock undisturbed started _ [] Hquiet Hsnap Hres)
    as (_ & final & Hget & _ & _ & _ & Hfinal & _).
  exists final. split; [exact Hget|exact Hfinal].
Defined.

Section RunPayloads.

Variable session_id : string.
Variable clock : nat → string.
Variable env : nat → registry → registry.
Hypothesis env_keeps : ∀ i reg, registered reg session_id → registered (env i reg) session_id.

(** A key that every step writes. *)
Variable key : string.
Variable value_at : nat → json.
Hypothesis key_written : ∀ i step now,
  in_progress_patch i step now !! key = Some (value_at i).

Lemma simulate_loop_key (i : nat) (todo : list (string * nat)) (st : service) :
  registered (progress_data st) session_id →
  ∃ evs st',
    simulate_loop session_id clock env i todo st = (st', Return ())
    ∧ outbox st' = outbox st ++ evs
    ∧ registered (progress_data st') session_id
    ∧ omap (fun e => payload e !! key) evs = value_at <$> seq i (length todo).
Proof.
  revert i st. induction todo as [|step_info todo IH]; intros i st Hreg.
  - exists [], st. simpl. rewrite app_nil_r. by repeat split.
  - destruct Hreg as (snap & l & Hsnap & Hres).
    cbn [simulate_loop]. rewrite Hsnap.
    set (snap' := apply_patch (in_progress_patch i step_info.1 (clock i)) snap).
    set (sent := mkEmission (ToRoom session_id) "progress_update" snap').
    cbn [progress_data emit set_progress_data outbox active_sessions rooms].
    assert (registered (env i (<[session_id := snap']> (progress_data st))) session_id)
      as Hreg'.
    { apply env_keeps. apply (registered_insert _ _ _ l).
      unfold snap', apply_patch. rewrite lookup_union_r; [done|].
      apply in_progress_patch_results. }
    set (reg1 := env i (<[session_id := snap']> (progress_data st))) in *.
    assert (∃ reg2,
      (if decide (i = 1%nat) then append_result session_id company_info_entry reg1
       else if decide (i = 3%nat) then append_result session_id competitive_intel_entry reg1
       else Return reg1) = Return reg2 ∧ registered reg2 session_id)
      as (reg2 & -> & Hreg2).
    { repeat case_decide; eauto using append_result_registered. }
    destruct (IH (S i)
                (set_progress_data
                   (mkService (active_sessions st) reg1 (rooms st) (outbox st ++ [sent]))
                   reg2) Hreg2)
      as (evs & st' & Hrun & Hout & Hreg3 & Hvals).
    exists (sent :: evs), st'. split; [exact Hrun|].
    split.
    { rewrite Hout. cbn [outbox set_progress_data]. by rewrite <- app_assoc. }
    split; [exact Hreg3|].
    assert (payload sent !! key = Some (value_at i)) as Hs.
    { unfold sent, snap', apply_patch. cbn [payload].
      by erewrite lookup_union_Some_l by apply key_written. }
    change (omap ?f (sent :: evs))
      with (match f sent with Some y => y :: omap f evs | None => omap f evs end).
    cbv beta. rewrite Hs, Hvals. done.
Qed.

Lemma run_events_key (st : service) (final_value : json) :
  registered (progress_data st) session_id →
  (∀ now, finished_patch now !! key = Some final_value) →
  omap (fun e => payload e !! key) (run_events session_id clock env st)
  = (value_at <$> seq 0 (length steps)) ++ [final_value].
Proof.
  intros Hreg Hfinal.
  destruct (simulate_loop_key 0 steps st Hreg)
    as (evs & st' & Hrun & Hout & (snap' & l' & Hsnap' & _) & Hvals).
  destruct Hreg as (snap & l & Hsnap & _).
  unfold run_events. erewrite sent_by_app.
  2:{ unfold _simulate_research_process. rewrite Hsnap, Hrun, Hsnap'.
      cbn [fst emit outbox set_progress_data]. rewrite Hout, <- app_assoc. reflexivity. }
  rewrite omap_app, Hvals. f_equal. simpl. unfold apply_patch.
  by erewrite lookup_union_Some_l by apply Hfinal.
Qed.

End RunPayloads.

Lemma in_progress_patch_progress (i : nat) (step now : string) :
  in_progress_patch i step now !! "progress" = Some (JInt (percent i)).
Proof.
  unfold in_progress_patch. rewrite !list_to_map_cons. simpl.
  rewrite !lookup_insert_ne by done. by rewrite lookup_insert_eq.
Qed.

Lemma in_progress_patch_status (i : nat) (step now : string) :
  in_progress_patch i step now !! "status" = Some (JStr "in_progress").
Proof.
  unfold in_progress_patch. rewrite !list_to_map_cons. simpl.
  by rewrite lookup_insert_eq.
Qed.

(** X20: as long as the session stays registered, the messages of a run
    report progress 0, 20, 40, 60, 80 and finally 100, with status
    "in_progress" on the first five and "completed" on the last, whatever
    else is written into the snapshot while the run sleeps. *)
Theorem simulated_run_progress (session_id : string) (clock : nat → string)
    (env : nat → registry → registry) (st : service) :
  registered (progress_data st) session_id →
  (∀ i reg, registered reg session_id → registered (env i reg) session_id) →
  omap (fun e => payload e !! "progress") (run_events session_id clock env st)
  = JInt <$> [0; 20; 40; 60; 80; 100]
  ∧ omap (fun e => payload e !! "status") (run_events session_id clock env st)
    = replicate 5 (JStr "in_progress") ++ [JStr "completed"].
Proof.
  intros Hreg Henv. split.
  - rewrite (run_events_key session_id clock env Henv "progress"
               (fun i => JInt (percent i)) in_progress_patch_progress st (JInt 100) Hreg);
      [done|].
    intros now. unfold finished_patch. rewrite !list_to_map_cons. simpl.
    rewrite lookup_insert_ne by done. by rewrite lookup_insert_eq.
  - rewrite (run_events_key session_id clock env Henv "status"
               (fun _ => JStr "in_progress") in_progress_patch_status st
               (JStr "completed") Hreg); [done|].
    intros now. unfold finished_patch. rewrite !list_to_map_cons. simpl.
    by rewrite lookup_insert_eq.
Qed.

Lemma simulated_run_progress_witness :
  registered (progress_data started) "s1"
  ∧ (∀ i reg, registered reg "s1" → registered (undisturbed i reg) "s1")
  ∧ omap (fun e => payload e !! "progress")
         (run_events "s1" steady_clock undisturbed started)
    = JInt <$> [0; 20; 40; 60; 80; 100].
Proof.
  assert (∀ i reg, registered reg "s1" → registered (undisturbed i reg) "s1") as Henv.
  { intros i reg H. exact H. }
  split; [exact started_registered|]. split; [exact Henv|].
  exact (proj1 (simulated_run_progress "s1" steady_clock undisturbed started
                  started_registered Henv)).
Defined.

(** X21: if the session is removed from the registry while the run sleeps
    after the progress message of step [i], nothing more is sent; the run
    then stops quietly, except at the steps 1 and 3, which gather a result
    after their sleep and die with [KeyError]. *)
Theorem session_removed_while_sleeping (session_id : string) (clock : nat → string)
    (env : nat → registry → registry) (i : nat) (step_info : string * nat)
    (todo : list (string * nat)) (st : service) (snap : snapshot) :
  progress_data st !! session_id = Some snap →
  env i (<[session_id := apply_patch (in_progress_patch i step_info.1 (clock i)) snap]>
           (progress_data st)) !! session_id = None →
  outbox (simulate_loop session_id clock env i (step_info :: todo) st).1
  = outbox st ++ [mkEmission (ToRoom session_id) "progress_update"
                    (apply_patch (in_progress_patch i step_info.1 (clock i)) snap)]
  ∧ progress_data (simulate_loop session_id clock env i (step_info :: todo) st).1
      !! session_id = None
  ∧ (simulate_loop session_id clock env i (step_info :: todo) st).2
    = if decide (i = 1%nat ∨ i = 3%nat) then Raise (KeyError session_id) else Return ().
Proof.
  intros Hsnap Hgone. cbn [simulate_loop]. rewrite Hsnap.
  cbn [progress_data emit set_progress_data outbox active_sessions rooms].
  unfold append_result. rewrite Hgone.
  destruct (decide (i = 1%nat)) as [->|H1].
  { rewrite decide_True by (by left). by repeat split. }
  destruct (decide (i = 3%nat)) as [->|H3].
  { rewrite decide_True by (by right). by repeat split. }
  rewrite decide_False by tauto.
  destruct todo as [|next todo]; cbn [simulate_loop progress_data set_progress_data];
    rewrite ?Hgone; by repeat split.
Qed.

Lemma session_removed_while_sleeping_witness :
  progress_data started !! "s1"
    = Some (initial_snapshot "s1" "p1" "Ann" "2025-07-28T12:00:00")
  ∧ (simulate_loop "s1" steady_clock always_cleaning 1
       [("Analyzing company information...", 3%nat)] started).2
    = Raise (KeyError "s1").
Proof.
  assert (progress_data started !! "s1"
          = Some (initial_snapshot "s1" "p1" "Ann" "2025-07-28T12:00:00")) as Hsnap
    by reflexivity.
  split; [exact Hsnap|].
  refine (proj2 (proj2 (session_removed_while_sleeping "s1" steady_clock always_cleaning 1
                   ("Analyzing company information...", 3%nat) [] started _ Hsnap _))).
  unfold always_cleaning, cleanup_session. cbn [progress_data].
  rewrite lookup_insert_eq. cbn [progress_data set_progress_data].
  apply lookup_delete_eq.
Defined.

(** ** A pass without hits *)

(** X22: a pass whose search returns no hit still counts as a pass and is
    still reported to the callback, but the agent's extractor yields the
    empty dictionary and the merge leaves the running result exactly as it
    was. *)
Theorem pass_without_hits
    (re_search : string → string → outcome (option string))
    (provider : SearchProvider) (progress_callback : bool) (fuel : nat)
    (company : Company) (person : Person) (iteration : nat) (results : dict)
    (sr : option (list search_result)) :
  continues iteration results = true →
  search provider iteration (_generate_search_query company person results iteration)
    = Return [] →
  research_loop provider (_extract_insights re_search) progress_callback (S fuel)
    company person iteration results sr
  = let rest := research_loop provider (_extract_insights re_search) progress_callback
                  fuel company person (iteration + 1) results (Some []) in
    (Searched (_generate_search_query company person results iteration)
       :: Merged results :: callback_events progress_callback iteration results ++ rest.1,
     rest.2).
Proof.
  intros Hg Hs. rewrite research_loop_step by done. cbv zeta. rewrite Hs.
  assert (_extract_insights re_search [] company = Return ∅) as -> by reflexivity.
  unfold dict_update. by rewrite (left_id_L ∅ (∪)).
Qed.

Lemma pass_without_hits_witness :
  continues 0 ∅ = true
  ∧ merged (research_loop silent_provider (_extract_insights re_never) false 1
              acme (mkPerson "p1" (Some "c1")) 0 ∅ None).1
    = [∅].
Proof.
  assert (continues 0 ∅ = true) as Hg by reflexivity.
  split; [exact Hg|].
  rewrite (pass_without_hits re_never silent_provider false 0 acme
             (mkPerson "p1" (Some "c1")) 0 ∅ None Hg eq_refl).
  reflexivity.
Defined.

(** * Properties of the session routes *)

Lemma initial_snapshot_nonempty (session_id person_id person_name now : string) :
  initial_snapshot session_id person_id person_name now ≠ ∅.
Proof.
  intros Hempty.
  assert (initial_snapshot session_id person_id person_name now !! "session_id"
          = Some (JStr session_id)) as Hk.
  { unfold initial_snapshot. rewrite list_to_map_cons. apply lookup_insert_eq. }
  rewrite Hempty in Hk. by rewrite lookup_empty in Hk.
Qed.

(** X23: the progress route never changes the service.  It answers 500
    before the service is initialised, 404 for a session that is not
    registered (and for a registered session whose snapshot is empty), and
    otherwise 200 with the snapshot. *)
Theorem progress_route_answers (session_id : string) (ws : option service) :
  (get_session_progress_route session_id ws).1 = ws
  ∧ (get_session_progress_route session_id None).2 = not_available
  ∧ (∀ st, progress_data st !! session_id = None →
       (get_session_progress_route session_id (Some st)).2
       = RFailure 404 "Session not found")
  ∧ (∀ st, progress_data st !! session_id = Some ∅ →
       (get_session_progress_route session_id (Some st)).2
       = RFailure 404 "Session not found")
  ∧ (∀ st snap, progress_data st !! session_id = Some snap → snap ≠ ∅ →
       (get_session_progress_route session_id (Some st)).2 = RProgress snap).
Proof.
  assert (∀ st snap, progress_data st !! session_id = Some snap → snap ≠ ∅ →
            (get_session_progress_route session_id (Some st)).2 = RProgress snap) as Hfound.
  { intros st snap Hsnap Hne. unfold get_session_progress_route, get_session_progress.
    rewrite Hsnap. unfold falsy_progress. by rewrite bool_decide_eq_false_2. }
  split; [|split; [done|split; [|split; [|exact Hfound]]]].
  - unfold get_session_progress_route. destruct ws as [st|]; [|done].
    destruct (falsy_progress _); [done|]. by destruct (get_session_progress _ _).
  - intros st Hnone. unfold get_session_progress_route, get_session_progress.
    by rewrite Hnone.
  - intros st Hempty. unfold get_session_progress_route, get_session_progress.
    rewrite Hempty. unfold falsy_progress. by rewrite bool_decide_eq_true_2.
Qed.

(** X24: the complete and cleanup routes do not check that the session
    exists: for a session id that is not registered they answer 200 with
    their success message and leave the service as it was, while the
    progress route answers 404 for the same id. *)
Theorem routes_accept_unknown_sessions (st : service) (session_id now : string)
    (data : gmap string json) :
  progress_data st !! session_id = None →
  complete_research_session session_id (ObjectBody data) now (Some st)
    = (Some st, RSuccess "Research session completed")
  ∧ cleanup_research_session session_id (Some st)
    = (Some st, RSuccess "Research session cleaned up")
  ∧ status_code (get_session_progress_route session_id (Some st)).2 = 404%nat.
Proof.
  intros Hnone.
  unfold complete_research_session, cleanup_research_session, complete_research,
    cleanup_session, get_session_progress_route, get_session_progress.
  by rewrite Hnone.
Qed.

Lemma routes_accept_unknown_sessions_witness :
  progress_data started !! "s9" = None
  ∧ cleanup_research_session "s9" (Some started)
    = (Some started, RSuccess "Research session cleaned up").
Proof.
  assert (progress_data started !! "s9" = None) as Hnone by by_evaluation.
  split; [exact Hnone|].
  exact (proj1 (proj2 (routes_accept_unknown_sessions started "s9" "t" ∅ Hnone))).
Defined.

(** X25: the complete route answers 500 with the text of the exception, and
    changes nothing, when the request carries no JSON object; it answers
    500 before the service is initialised; and on a registered session a
    body without a "results" key completes the session with an empty list
    of results, discarding those gathered so far. *)
Theorem complete_route_body (session_id now : string) :
  (∀ ws error,
     complete_research_session session_id (BadBody error) now ws
     = (ws, RFailure 500 error))
  ∧ (∀ data, complete_research_session session_id (ObjectBody data) now None
             = (None, not_available))
  ∧ (∀ st snap data,
       progress_data st !! session_id = Some snap →
       data !! "results" = None →
       ∃ st' final,
         complete_research_session session_id (ObjectBody data) now (Some st)
         = (Some st', RSuccess "Research session completed")
         ∧ get_session_progress session_id st' = Some final
         ∧ final !! "results" = Some (JList [])
         ∧ final !! "status" = Some (JStr "completed")).
Proof.
  split; [done|]. split; [done|].
  intros st snap data Hsnap Hdata. unfold complete_research_session. rewrite Hdata.
  eexists _, _. split; [reflexivity|]. cbn [default].
  unfold get_session_progress.
  rewrite (complete_research_lookup _ _ _ _ _ Hsnap). split; [apply lookup_insert_eq|].
  unfold apply_patch. split; by erewrite lookup_union_Some_l.
Qed.

(** * Instances on the sample data *)

Lemma extract_insights_products_witness :
  _extract_insights re_never second_hits acme = Return second_extraction
  ∧ NoDup (get_list second_extraction "product_names").
Proof.
  assert (_extract_insights re_never second_hits acme = Return second_extraction) as H
    by by_evaluation.
  split; [exact H|].
  exact (proj2 (extract_insights_products re_never acme second_hits second_extraction H)).
Defined.

Lemma extract_insights_scalars_present_witness :
  second_hits ≠ []
  ∧ _extract_insights re_never second_hits acme = Return second_extraction
  ∧ dict_update first_extraction second_extraction !! "pricing_model"
    = second_extraction !! "pricing_model".
Proof.
  assert (second_hits ≠ []) as Hne by discriminate.
  assert (_extract_insights re_never second_hits acme = Return second_extraction) as H
    by by_evaluation.
  split; [exact Hne|]. split; [exact H|].
  exact (proj2 (proj2 (proj2
    (extract_insights_scalars_present re_never acme second_hits second_extraction
       first_extraction Hne H)))).
Defined.

Lemma extract_insights_first_wins_witness :
  _extract_insights re_never first_hits acme = Return first_extraction
  ∧ get_truthy first_extraction "pricing_model" = true
  ∧ _extract_insights re_never (first_hits ++ later_hits) acme = Return joint_extraction
  ∧ joint_extraction !! "pricing_model" = first_extraction !! "pricing_model".
Proof.
  assert (_extract_insights re_never first_hits acme = Return first_extraction) as H1
    by by_evaluation.
  assert (get_truthy first_extraction "pricing_model" = true) as Ht by by_evaluation.
  assert (_extract_insights re_never (first_hits ++ later_hits) acme
          = Return joint_extraction) as H2 by by_evaluation.
  split; [exact H1|]. split; [exact Ht|]. split; [exact H2|].
  exact (extract_insights_first_wins re_never acme first_hits later_hits
           first_extraction joint_extraction "pricing_model" (or_intror eq_refl) H1 Ht H2).
Defined.

Lemma research_person_first_query_witness :
  resolve sample_db "p1" = Some acme
  ∧ head (searched (research_person varying_provider (_extract_insights re_never)
                      true sample_db "p1").1)
    = Some "Acme company overview products pricing".
Proof.
  assert (resolve sample_db "p1" = Some acme) as Hres by by_evaluation.
  split; [exact Hres|].
  exact (research_person_first_query varying_provider (_extract_insights re_never)
           true sample_db "p1" acme Hres).
Defined.

Lemma agent_never_exits_early_witness :
  (DeepResearchAgent re_never None true sample_db "p2").2 = Some (Return alpha_results)
  ∧ length (searched (DeepResearchAgent re_never None true sample_db "p2").1) = 3%nat.
Proof.
  assert ((DeepResearchAgent re_never None true sample_db "p2").2
          = Some (Return alpha_results)) as H by by_evaluation.
  split; [exact H|].
  exact (proj1 (agent_never_exits_early re_never None true sample_db "p2" alpha_results H)).
Defined.

(** * The pricing model of an extraction *)

Lemma extract_pricing_truthy (text label : string) :
  _extract_pricing text = Some label → truthy (FStr label) = true.
Proof.
  unfold _extract_pricing.
  repeat match goal with |- context [if ?b then _ else _] => destruct b end;
    by intros [= <-].
Qed.

Lemma first_pricing_snoc (hits : list search_result) (h : search_result) :
  first_pricing (hits ++ [h])
  = match first_pricing hits with
    | Some label => Some label
    | None => _extract_pricing (hit_text h)
    end.
Proof.
  unfold first_pricing. rewrite omap_app.
  destruct (omap _ hits) as [|label labels]; simpl; [|done].
  by destruct (_extract_pricing (hit_text h)).
Qed.

Lemma get_truthy_of_option (insights : dict) (k : string) (o : option string) :
  (∀ label, o = Some label → truthy (FStr label) = true) →
  insights !! k = Some (of_option o) →
  get_truthy insights k = match o with Some _ => true | None => false end.
Proof.
  intros Ho Hk. unfold get_truthy. rewrite Hk. destruct o as [label|]; [|done].
  by apply Ho.
Qed.

Lemma first_pricing_truthy (hits : list search_result) (label : string) :
  first_pricing hits = Some label → truthy (FStr label) = true.
Proof.
  unfold first_pricing. intros Hhead.
  apply head_Some_elem_of in Hhead.
  apply list_elem_of_omap in Hhead as (h & _ & Hh).
  by eapply extract_pricing_truthy.
Qed.

(** X26: the pricing model of an extraction is decided by the first hit, in
    the order of the hits, whose text names a pricing keyword: the
    extraction holds that hit's label, and [None] when no hit names one. *)
Theorem extract_insights_pricing
    (re_search : string → string → outcome (option string)) (company : Company)
    (hits : list search_result) (extracted : dict) :
  hits ≠ [] →
  _extract_insights re_search hits company = Return extracted →
  extracted !! "pricing_model" = Some (of_option (first_pricing hits)).
Proof.
  intros Hne (insights & Hfold & ->)%extract_insights_inv.
  rewrite deduplicate_other by done.
  assert (hits = [] ∧ insights !! "pricing_model" = None
          ∨ insights !! "pricing_model" = Some (of_option (first_pricing hits)))
    as [[? _]|Hinv]; [|done..].
  clear Hne. revert hits insights Hfold.
  apply (fold_insights_ind re_search company
           (fun insights hits =>
              hits = [] ∧ insights !! "pricing_model" = None
              ∨ insights !! "pricing_model" = Some (of_option (first_pricing hits))));
    [left; by rewrite lookup_empty|].
  intros insights hits h insights' IH Hstep. right.
  apply insights_step_inv in Hstep as (base & competitors & Hbase & _ & ->).
  rewrite with_competitors_other by done.
  assert (base !! "pricing_model" = insights !! "pricing_model") as Hb.
  { destruct Hbase as [[_ ->]|(_ & vp & _ & ->)]; [done|]. by rewrite lookup_insert_ne. }
  rewrite first_pricing_snoc. unfold with_pricing, get_truthy.
  rewrite !with_products_other, Hb by done.
  destruct IH as [[-> Hnone]|Hsome].
  - rewrite Hnone. by rewrite lookup_insert_eq.
  - rewrite Hsome. destruct (first_pricing hits) as [label|] eqn:Hfp.
    + pose proof (first_pricing_truthy hits label Hfp) as Ht. simpl in *.
      rewrite Ht. by rewrite with_products_other, Hb, Hsome.
    + simpl. by rewrite lookup_insert_eq.
Qed.

Lemma extract_insights_pricing_witness :
  second_hits ≠ []
  ∧ _extract_insights re_never second_hits acme = Return second_extraction
  ∧ second_extraction !! "pricing_model" = Some (FStr "Freemium pricing model").
Proof.
  assert (second_hits ≠ []) as Hne by discriminate.
  assert (_extract_insights re_never second_hits acme = Return second_extraction) as H
    by by_evaluation.
  split; [exact Hne|]. split; [exact H|].
  exact (extract_insights_pricing re_never acme second_hits second_extraction Hne H).
Defined.
